(** * Bank chaincode: a shallow embedding and its properties

    The program is [chaincode/hlf-course-chaincode-bank/bank-chaincode.go]:
    five handlers ([addAccount], [delAccount], [getBalance], [transfer],
    [getHistory]) stored in the map [actions] and reached through
    [bankManagement.Invoke].  Each handler talks to the Fabric peer through
    the chaincode stub and answers with a [peer.Response].

    The handlers are translated statement by statement.  The stub is a
    record holding the invocation, the ledger, the log of the port calls
    issued so far and the answers of the peer (faults included).
    [encoding/json], [strconv] and the one comparison of the source that Go
    does not type are taken as an interface ([GoLib]), so the general
    theorems hold whatever these do; [Fixture] implements the interface on
    a fragment, to run the handlers on concrete invocations.  Balances are
    [float64] in the source and primitive binary64 floats here.

    Where the source drops the result of [shim.Error] and goes on, so does
    the embedding; where it calls a method on a nil iterator, the outcome
    is a panic. *)

From Stdlib Require Import ZArith NArith String Ascii List Floats Lia Bool.
From stdpp Require Import gmap strings pretty.

Local Open Scope string_scope.

(** ** Data *)

(** [[]byte]: the ledger stores byte strings; nil is [None] where the source
    tests for it. *)
Definition Bytes : Type := string.

(** A Go [error] value, by the text its [Error()] method gives; the nil
    error is [None] of [option error]. *)
Definition error : Type := string.

(** [type BankAccount struct].  The struct tags of the source are not
    key:"value" pairs, so the JSON names are the field names themselves. *)
Record BankAccount : Type := mkBankAccount {
  PersonID : N;              (* uint64 *)
  AccountNumber : string;
  Balance : float;           (* float64 *)
}.

(** [var account BankAccount]: the zero value. *)
Definition zeroAccount : BankAccount := mkBankAccount 0 "" 0%float.

Definition withBalance (account : BankAccount) (b : float) : BankAccount :=
  mkBankAccount (PersonID account) (AccountNumber account) b.

(** The payload of a response.  It is a [[]byte] in Go ([PNil], [PBytes]),
    but the source also hands to [shim.Success] the selector
    [accountState.Balance] taken on the raw [[]byte] read from the ledger,
    and the [[]string] of history lines; the first of these has no meaning
    in Go, so it is kept as written. *)
Inductive PayloadValue : Type :=
| PNil
| PBytes (payload : Bytes)
| PBalanceOf (accountState : Bytes)
| PHistory (history : list string).

(** [peer.Response]. *)
Record Response : Type := mkResponse {
  Status : Z;                (* int32 *)
  Message : string;
  Payload : PayloadValue;
}.

Definition shim_OK : Z := 200.
Definition shim_ERROR : Z := 500.

Definition shim_Success (payload : PayloadValue) : Response :=
  mkResponse shim_OK "" payload.

Definition shim_Error (msg : string) : Response :=
  mkResponse shim_ERROR msg PNil.

(** One entry of a key's history ([queryresult.KeyModification]). *)
Record KeyModification : Type := mkKeyModification {
  TxId : string;
  Value : Bytes;
  IsDelete : bool;
}.

(** [shim.HistoryQueryIteratorInterface]: the results of the successive
    calls of [Next]; [HasNext] holds while some are left. *)
Definition HistoryIterator : Type := list (KeyModification * option error).

(** A call made through the stub. *)
Inductive PortCall : Type :=
| CInvokeChaincode (name : string) (args : list Bytes) (channel : string)
| CGetState (key : string)
| CPutState (key : string) (value : Bytes)
| CDelState (key : string)
| CGetHistoryForKey (key : string)
| CHasNext
| CNext.

(** How the peer answers: the fault, if any, of a ledger call, the reply of
    a called chaincode, and the iterator and error of a history query. *)
Record Ports : Type := mkPorts {
  GetState_fault : string -> option error;
  PutState_fault : string -> Bytes -> option error;
  DelState_fault : string -> option error;
  InvokeChaincode_reply : string -> list Bytes -> string -> Response;
  GetHistoryForKey_reply : string -> option HistoryIterator * option error;
}.

(** [shim.ChaincodeStubInterface], as one invocation sees it. *)
Record Stub : Type := mkStub {
  ports : Ports;
  invocation : string * list string;
  ledger : gmap string Bytes;
  calls : list PortCall;       (* oldest first *)
}.

(** A handler returns a response, or the goroutine panics. *)
Inductive Outcome : Type :=
| Return (response : Response)
| Panic (reason : string).

(** ** The stub's methods *)

Definition logCall (c : PortCall) (stub : Stub) : Stub :=
  mkStub (ports stub) (invocation stub) (ledger stub) (calls stub ++ [c]).

Definition setLedger (l : gmap string Bytes) (stub : Stub) : Stub :=
  mkStub (ports stub) (invocation stub) l (calls stub).

Definition GetFunctionAndParameters (stub : Stub) : string * list string :=
  invocation stub.

Definition InvokeChaincode (stub : Stub) (name : string) (args : list Bytes)
    (channel : string) : Stub * Response :=
  (logCall (CInvokeChaincode name args channel) stub,
   InvokeChaincode_reply (ports stub) name args channel).

Definition GetState (stub : Stub) (key : string)
    : Stub * (option Bytes * option error) :=
  let stub' := logCall (CGetState key) stub in
  match GetState_fault (ports stub) key with
  | Some e => (stub', (None, Some e))
  | None => (stub', (ledger stub !! key, None))
  end.

Definition PutState (stub : Stub) (key : string) (value : Bytes)
    : Stub * option error :=
  let stub' := logCall (CPutState key value) stub in
  match PutState_fault (ports stub) key value with
  | Some e => (stub', Some e)
  | None => (setLedger (<[key := value]> (ledger stub)) stub', None)
  end.

Definition DelState (stub : Stub) (key : string) : Stub * option error :=
  let stub' := logCall (CDelState key) stub in
  match DelState_fault (ports stub) key with
  | Some e => (stub', Some e)
  | None => (setLedger (delete key (ledger stub)) stub', None)
  end.

Definition GetHistoryForKey (stub : Stub) (key : string)
    : Stub * (option HistoryIterator * option error) :=
  (logCall (CGetHistoryForKey key) stub, GetHistoryForKey_reply (ports stub) key).

(** ** Formatting *)

(** The verb [%s] applied to an [error]: its text, or [%!s(<nil>)] for the
    nil error. *)
Definition fmt_s (err : option error) : string :=
  match err with
  | Some e => e
  | None => "%!s(<nil>)"
  end.

(** The verb [%d] applied to a [uint64]. *)
Definition fmt_d (n : N) : string := pretty n.

(** ** The Go library, as the handlers use it *)

Class GoLib : Type := mkGoLib {
  (** [json.Unmarshal(data, &account)] on a zero [account]: the account
      afterwards and the error. *)
  json_Unmarshal : Bytes -> BankAccount * option error;
  (** The bytes of [json.Marshal(account)]. *)
  json_Marshal : BankAccount -> Bytes;
  (** [strconv.ParseFloat(s, 64)]. *)
  strconv_ParseFloat : string -> float * option error;
  (** [response.Value >= 0], a comparison of a [[]byte] with a number that
      Go does not type. *)
  Value_ge_0 : Bytes -> bool;
}.

(** ** The handlers *)

Section Handlers.
Context {L : GoLib}.

(** The type of the values of [actions]. *)
Definition Action : Type := Stub -> list string -> Stub * Outcome.

(** [actions["addAccount"]].  The result of the last [shim.Error] is
    dropped by the source, and so it is here. *)
Definition addAccount : Action := fun stub params =>
  match params with
  | [p0] =>
    let '(account, err) := json_Unmarshal p0 in
    match err with
    | Some _ =>
      (stub, Return (shim_Error
         ("failed to desirialize bank account information error " +:+ fmt_s err)))
    | None =>
      let personID := fmt_d (PersonID account) in
      let '(stub, response) :=
        InvokeChaincode stub "personCC" ["getPerson"; personID] "mychannel" in
      if (Status response =? shim_ERROR)%Z then
        (stub, Return (shim_Error
           ("failed to create bank account for person with id " +:+ personID
            +:+ ", due to " +:+ fmt_s err)))
      else
        let '(stub, (accountState, err)) := GetState stub (AccountNumber account) in
        match err with
        | Some _ =>
          (stub, Return (shim_Error
             ("failed to create bank account due to " +:+ fmt_s err)))
        | None =>
          match accountState with
          | Some _ =>
            (stub, Return (shim_Error
               ("bank account with number " +:+ AccountNumber account
                +:+ " already exists")))
          | None =>
            let '(stub, err) := PutState stub (AccountNumber account) p0 in
            let _ :=
              match err with
              | Some _ =>
                Some (shim_Error
                  ("failed to save bank account with number "
                   +:+ AccountNumber account +:+ ", due to " +:+ fmt_s err))
              | None => None
              end in
            (stub, Return (shim_Success PNil))
          end
        end
    end
  | _ => (stub, Return (shim_Error "wrong number of arguments"))
  end.

(** [actions["delAccount"]]. *)
Definition delAccount : Action := fun stub params =>
  match params with
  | [accountId] =>
    let '(stub, (accountState, err)) := GetState stub accountId in
    match err with
    | Some _ =>
      (stub, Return (shim_Error
         ("failed to get account information due to " +:+ fmt_s err)))
    | None =>
      match accountState with
      | None =>
        (stub, Return (shim_Error
           ("bank account with number " +:+ accountId +:+ " doesn't exists")))
      | Some _ =>
        let '(stub, err) := DelState stub accountId in
        match err with
        | Some _ =>
          (stub, Return (shim_Error
             ("failed to delete account id " +:+ accountId
              +:+ ", due to " +:+ fmt_s err)))
        | None => (stub, Return (shim_Success PNil))
        end
      end
    end
  | _ => (stub, Return (shim_Error "wrong number of parameters"))
  end.

(** [actions["getBalance"]].  The source selects [Balance] on the bytes
    it read, without decoding them: the handler makes no use of the
    library. *)
Definition getBalance : Action := fun stub params =>
  match params with
  | [accountId] =>
    let '(stub, (accountState, err)) := GetState stub accountId in
    match err with
    | Some _ =>
      (stub, Return (shim_Error
         ("failed to get account information due to " +:+ fmt_s err)))
    | None =>
      match accountState with
      | None =>
        (stub, Return (shim_Error
           ("bank account with number " +:+ accountId +:+ " doesn't exists")))
      | Some accountState => (stub, Return (shim_Success (PBalanceOf accountState)))
      end
    end
  | _ => (stub, Return (shim_Error "wrong number of parameters"))
  end.

(** [senderAccount.Balance - amount < 0]. *)
Definition overdrawn (balance amount : float) : bool :=
  PrimFloat.ltb (PrimFloat.sub balance amount) 0%float.

(** [actions["transfer"]].  The results of the two [shim.Error] calls
    after the writes are dropped by the source, and so they are here. *)
Definition transfer : Action := fun stub params =>
  match params with
  | [from; to; amountText] =>
    let '(amount, err) := strconv_ParseFloat amountText in
    match err with
    | Some _ =>
      (stub, Return (shim_Error "failed to convert amount string to number"))
    | None =>
      let '(stub, (senderState, err)) := GetState stub from in
      match err with
      | Some _ =>
        (stub, Return (shim_Error
           ("failed to get sender account information due to " +:+ fmt_s err)))
      | None =>
        match senderState with
        | None =>
          (stub, Return (shim_Error
             ("sender bank account with number " +:+ from +:+ " doesn't exists")))
        | Some senderState =>
          let '(senderAccount, err) := json_Unmarshal senderState in
          match err with
          | Some _ =>
            (stub, Return (shim_Error
               ("failed to read senderState " +:+ senderState
                +:+ ", due to " +:+ fmt_s err)))
          | None =>
            if overdrawn (Balance senderAccount) amount then
              (stub, Return (shim_Error "sender doesn't have enough money"))
            else
              let '(stub, (receiverState, err)) := GetState stub to in
              match err with
              | Some _ =>
                (stub, Return (shim_Error
                   ("failed to get receiver account information due to "
                    +:+ fmt_s err)))
              | None =>
                match receiverState with
                | None =>
                  (stub, Return (shim_Error
                     ("receiver bank account with number " +:+ to
                      +:+ " doesn't exists")))
                | Some receiverState =>
                  let '(receiverAccount, err) := json_Unmarshal receiverState in
                  match err with
                  | Some _ =>
                    (stub, Return (shim_Error
                       ("failed to read senderState " +:+ senderState
                        +:+ ", due to " +:+ fmt_s err)))
                  | None =>
                    let senderAccount :=
                      withBalance senderAccount
                        (PrimFloat.sub (Balance senderAccount) amount) in
                    let receiverAccount :=
                      withBalance receiverAccount
                        (PrimFloat.add (Balance receiverAccount) amount) in
                    let '(stub, err) :=
                      PutState stub from (json_Marshal senderAccount) in
                    let _ :=
                      match err with
                      | Some _ =>
                        Some (shim_Error
                          ("failed to update balance of " +:+ from
                           +:+ ", due to " +:+ fmt_s err))
                      | None => None
                      end in
                    let '(stub, err) :=
                      PutState stub to (json_Marshal receiverAccount) in
                    let _ :=
                      match err with
                      | Some _ =>
                        Some (shim_Error
                          ("failed to update balance of " +:+ to
                           +:+ ", due to " +:+ fmt_s err))
                      | None => None
                      end in
                    (stub, Return (shim_Success PNil))
                  end
                end
              end
          end
        end
      end
    end
  | _ =>
    (stub, Return (shim_Error "wrong number of parameters(use: from, to, amount)"))
  end.

(** The [for historyIterator.HasNext()] loop of [getHistory]. *)
Fixpoint historyLoop (historyIterator : HistoryIterator) (stub : Stub)
    (history : list string) : Stub * Outcome :=
  match historyIterator with
  | [] => (logCall CHasNext stub, Return (shim_Success (PHistory history)))
  | (response, err) :: rest =>
    let stub := logCall CNext (logCall CHasNext stub) in
    match err with
    | Some _ =>
      (stub, Return (shim_Error "failed get Next() for historyIterator"))
    | None =>
      if Value_ge_0 (Value response) then
        historyLoop rest stub (history ++ ["+" +:+ Value response])
      else
        historyLoop rest stub (history ++ [Value response])
    end
  end.

(** [actions["getHistory"]].  The result of [shim.Error] after
    [GetHistoryForKey] is dropped by the source; the loop then calls
    [HasNext] on whatever iterator came back, and a method call on the nil
    interface panics. *)
Definition getHistory : Action := fun stub params =>
  match params with
  | [accountId] =>
    let history : list string := [] in
    let '(stub, (historyIterator, err)) := GetHistoryForKey stub accountId in
    let _ :=
      match err with
      | Some _ =>
        Some (shim_Error
          ("failed to read history of " +:+ accountId
           +:+ ", due to " +:+ fmt_s err))
      | None => None
      end in
    match historyIterator with
    | None =>
      (stub, Panic "runtime error: invalid memory address or nil pointer dereference")
    | Some historyIterator => historyLoop historyIterator stub history
    end
  | _ => (stub, Return (shim_Error "wrong number of parameters"))
  end.

(** [var actions = map[string]func(...) peer.Response{...}]. *)
Definition actions : gmap string Action :=
  list_to_map
    [("addAccount", addAccount); ("delAccount", delAccount);
     ("getBalance", getBalance); ("transfer", transfer);
     ("getHistory", getHistory)].

(** [bankManagement.Init]; the line it prints is not modelled. *)
Definition Init (stub : Stub) : Stub * Outcome :=
  (stub, Return (shim_Success PNil)).

(** [bankManagement.Invoke]. *)
Definition Invoke (stub : Stub) : Stub * Outcome :=
  let '(funcName, params) := GetFunctionAndParameters stub in
  match actions !! funcName with
  | None => (stub, Return (shim_Error "unknown operation"))
  | Some action => action stub params
  end.

End Handlers.


(** ** Observations on a run *)

(** The balance of the record stored under [key], once decoded. *)
Definition storedBalance {L : GoLib} (l : gmap string Bytes) (key : string)
    : option float :=
  match l !! key with
  | Some raw =>
    let '(account, err) := json_Unmarshal raw in
    match err with
    | Some _ => None
    | None => Some (Balance account)
    end
  | None => None
  end.

(** The codec reads back the record it wrote for [account]. *)
Definition decodesToItself {L : GoLib} (account : BankAccount) : Prop :=
  json_Unmarshal (json_Marshal account) = (account, None).

(** The calls that change the ledger. *)
Definition isWrite (c : PortCall) : bool :=
  match c with
  | CPutState _ _ | CDelState _ => true
  | _ => false
  end.

(** The writes among the port calls, in the order they were issued. *)
Definition writesOf (cs : list PortCall) : list PortCall := List.filter isWrite cs.

(** The port calls an execution added to the log. *)
Definition issued (before after : Stub) (cs : list PortCall) : Prop :=
  calls after = (calls before ++ cs)%list.

(** The reply of the registry to the check [addAccount] makes for the owner
    of [account]. *)
Definition registryReply (stub : Stub) (account : BankAccount) : Response :=
  InvokeChaincode_reply (ports stub) "personCC"
    ["getPerson"; fmt_d (PersonID account)] "mychannel".

(** That check, as a port call. *)
Definition registryCall (account : BankAccount) : PortCall :=
  CInvokeChaincode "personCC" ["getPerson"; fmt_d (PersonID account)] "mychannel".

(** The float [+0] in [SpecFloat]. *)
Definition SFzero : spec_float := S754_zero false.

(** ** A concrete library and peer

    [Fixture] instantiates [GoLib] on the fragment of JSON and of number
    syntax the examples need, so that the handlers can be run.  On that
    fragment it computes what Go computes: compact objects with the three
    fields in the order of the struct, account numbers of plain printable
    characters, and balances and amounts that are decimal integers. *)
Module Fixture.

(** The double quote. *)
Definition dq : string := String "034" EmptyString.

Definition isDigit (c : ascii) : bool :=
  let n := nat_of_ascii c in (48 <=? n)%nat && (n <=? 57)%nat.

(** Characters [encoding/json] writes and reads as themselves inside a
    string. *)
Definition isPlain (c : ascii) : bool :=
  let n := nat_of_ascii c in
  (32 <=? n)%nat && (n <=? 126)%nat
  && negb (n =? 34)%nat && negb (n =? 92)%nat
  && negb (n =? 60)%nat && negb (n =? 62)%nat && negb (n =? 38)%nat.

Fixpoint allChars (p : ascii -> bool) (s : string) : bool :=
  match s with
  | EmptyString => true
  | String c s' => p c && allChars p s'
  end.

(** The longest prefix of characters satisfying [p], and the rest. *)
Fixpoint span (p : ascii -> bool) (s : string) : string * string :=
  match s with
  | EmptyString => (EmptyString, EmptyString)
  | String c s' =>
    if p c then let '(a, b) := span p s' in (String c a, b)
    else (EmptyString, s)
  end.

Fixpoint stripPrefix (p s : string) : option string :=
  match p, s with
  | EmptyString, _ => Some s
  | String a p', String b s' => if Ascii.eqb a b then stripPrefix p' s' else None
  | String _ _, EmptyString => None
  end.

(** The value of a string of decimal digits. *)
Definition digitsValue (ds : string) : N :=
  fold_left (fun acc c => (10 * acc + N.of_nat (nat_of_ascii c - 48))%N)
            (list_ascii_of_string ds) 0%N.

(** The binary64 nearest to an integer (ties to even), with the sign of
    zero given apart. *)
Definition floatOfInteger (negative : bool) (n : N) : float :=
  SF2Prim (binary_normalize prec emax
             (if negative then Z.opp (Z.of_N n) else Z.of_N n) 0 negative).

Definition isFinite (f : float) : bool :=
  match Prim2SF f with
  | S754_zero _ | S754_finite _ _ _ => true
  | _ => false
  end.

(** [strconv.ParseFloat(s, 64)] on an optionally signed string of decimal
    digits.  Any other text is answered with a syntax error: Go does so for
    texts that are not numbers, but it also reads fractions, exponents,
    digit separators, hexadecimal forms, infinities and NaN, which this
    fragment leaves out. *)
Definition ParseFloat (s : string) : float * option error :=
  let failure (what : string) : option error :=
    Some ("strconv.ParseFloat: parsing " +:+ dq +:+ s +:+ dq +:+ ": " +:+ what) in
  let '(negative, body) :=
    match s with
    | String "-" r => (true, r)
    | String "+" r => (false, r)
    | _ => (false, s)
    end in
  match body with
  | EmptyString => (0%float, failure "invalid syntax")
  | _ =>
    if allChars isDigit body then
      let f := floatOfInteger negative (digitsValue body) in
      if isFinite f then (f, None) else (f, failure "value out of range")
    else (0%float, failure "invalid syntax")
  end.

(** A JSON integer: digits with no leading zero. *)
Definition isJSONInteger (ds : string) : bool :=
  match ds with
  | EmptyString => false
  | String "0" EmptyString => true
  | String "0" _ => false
  | _ => allChars isDigit ds
  end.

(** The integer a float is, when it is one of at most 2^53 in magnitude. *)
Definition integerOfFloat (f : float) : option (bool * N) :=
  match Prim2SF f with
  | S754_zero s => Some (s, 0%N)
  | S754_finite s m e =>
    let v :=
      match e with
      | Z0 => Some (Npos m)
      | Zpos p => Some (N.shiftl (Npos m) (Npos p))
      | Zneg p =>
        if (N.land (Npos m) (N.ones (Npos p)) =? 0)%N
        then Some (N.shiftr (Npos m) (Npos p)) else None
      end in
    match v with
    | Some n => if (n <=? 2 ^ 53)%N then Some (s, n) else None
    | None => None
    end
  | _ => None
  end.

(** [json.Marshal] of an account.  Where the account number has a character
    that JSON escapes, or the balance is not an integer of at most 2^53 in
    magnitude, the fragment gives no bytes. *)
Definition Marshal (account : BankAccount) : Bytes :=
  match integerOfFloat (Balance account) with
  | Some (negative, n) =>
    if allChars isPlain (AccountNumber account) then
      "{" +:+ dq +:+ "PersonID" +:+ dq +:+ ":" +:+ pretty (PersonID account)
      +:+ "," +:+ dq +:+ "AccountNumber" +:+ dq +:+ ":"
      +:+ dq +:+ AccountNumber account +:+ dq
      +:+ "," +:+ dq +:+ "Balance" +:+ dq +:+ ":"
      +:+ (if negative then "-" else "") +:+ pretty n +:+ "}"
    else ""
  | None => ""
  end.

Definition malformed : option error := Some "json: malformed bank account".

(** [json.Unmarshal] into a zero account, on the objects [Marshal] writes.
    Other texts are reported as malformed (Go reads more: white space, other
    orders of the keys, fractions), and the text of the error is not
    Go's. *)
Definition Unmarshal (data : Bytes) : BankAccount * option error :=
  match stripPrefix ("{" +:+ dq +:+ "PersonID" +:+ dq +:+ ":") data with
  | None => (zeroAccount, malformed)
  | Some r =>
    let '(pid, r) := span isDigit r in
    if negb (isJSONInteger pid) || negb (digitsValue pid <? 2 ^ 64)%N
    then (zeroAccount, malformed) else
    match stripPrefix ("," +:+ dq +:+ "AccountNumber" +:+ dq +:+ ":" +:+ dq) r with
    | None => (zeroAccount, malformed)
    | Some r =>
      let '(number, r) := span isPlain r in
      match stripPrefix (dq +:+ "," +:+ dq +:+ "Balance" +:+ dq +:+ ":") r with
      | None => (zeroAccount, malformed)
      | Some r =>
        let '(negative, r) :=
          match r with
          | String "-" r' => (true, r')
          | _ => (false, r)
          end in
        let '(digits, r) := span isDigit r in
        let f := floatOfInteger negative (digitsValue digits) in
        if isJSONInteger digits && isFinite f && String.eqb r "}"
        then (mkBankAccount (digitsValue pid) number f, None)
        else (zeroAccount, malformed)
      end
    end
  end.

(** The fragment as a [GoLib]; the comparison of a history value with zero
    is taken to hold. *)
Definition lib : GoLib := mkGoLib Unmarshal Marshal ParseFloat (fun _ => true).

(** A peer on which nothing fails and the registry knows every person. *)
Definition peer : Ports :=
  mkPorts (fun _ => None) (fun _ _ => None) (fun _ => None)
          (fun _ _ _ => shim_Success PNil)
          (fun _ => (Some [], None)).

Definition acc1 : BankAccount := mkBankAccount 42 "ACC-1" 100%float.
Definition acc2 : BankAccount := mkBankAccount 43 "ACC-2" 0%float.

(** The two accounts of the scenario of the specification. *)
Definition bank : gmap string Bytes :=
  <["ACC-2" := Marshal acc2]> (<["ACC-1" := Marshal acc1]> ∅).

Definition stubOf (p : Ports) (l : gmap string Bytes) (f : string)
    (params : list string) : Stub :=
  mkStub p (f, params) l [].

(** The same peer, on which every write is refused with the error [e]. *)
Definition peerWritesFail (e : error) : Ports :=
  mkPorts (fun _ => None) (fun _ _ => Some e) (fun _ => None)
          (fun _ _ _ => shim_Success PNil)
          (fun _ => (Some [], None)).

(** A peer whose registry rejects every person, giving its reason in the
    message and the payload of the reply. *)
Definition peerRegistryRejects (reason : string) (payload : PayloadValue) : Ports :=
  mkPorts (fun _ => None) (fun _ _ => None) (fun _ => None)
          (fun _ _ _ => mkResponse shim_ERROR reason payload)
          (fun _ => (Some [], None)).

(** A peer that cannot produce a history: as Fabric's stub does, it returns
    the nil iterator with the error. *)
Definition peerHistoryFails (e : error) : Ports :=
  mkPorts (fun _ => None) (fun _ _ => None) (fun _ => None)
          (fun _ _ _ => shim_Success PNil)
          (fun _ => (None, Some e)).

(** A peer whose history of any key has two entries, the second of which
    cannot be fetched. *)
Definition peerHistoryBreaks : Ports :=
  mkPorts (fun _ => None) (fun _ _ => None) (fun _ => None)
          (fun _ _ _ => shim_Success PNil)
          (fun _ => (Some [(mkKeyModification "tx2" (Marshal acc1) false, None);
                           (mkKeyModification "" "" false, Some "history: fetch failed")],
                     None)).

Definition acc3 : BankAccount := mkBankAccount 44 "ACC-3" 5%float.

(** A second record for the number of [acc1]. *)
Definition acc1Again : BankAccount := mkBankAccount 45 "ACC-1" 7%float.

(** Two accounts whose balances add up to more than 2^53. *)
Definition small : BankAccount := mkBankAccount 1 "A" 4%float.
Definition large : BankAccount := mkBankAccount 2 "B" 9007199254740991%float.

Definition vault : gmap string Bytes :=
  <["B" := Marshal large]> (<["A" := Marshal small]> ∅).

(** A ledger with one key, holding [accountState]. *)
Definition holding (accountState : Bytes) : gmap string Bytes :=
  <["ACC-9" := accountState]> ∅.

(** [Invoke] under the fragment, on a fresh stub. *)
Definition run (p : Ports) (l : gmap string Bytes) (f : string)
    (params : list string) : Stub * Outcome :=
  @Invoke lib (stubOf p l f params).

(** The balance stored under [key], under the fragment. *)
Definition balanceOf (l : gmap string Bytes) (key : string) : option float :=
  @storedBalance lib l key.

(** The exact sum of the balances stored under two keys, when both are
    non-negative integers. *)
Definition exactTotal (l : gmap string Bytes) (k1 k2 : string) : option N :=
  match balanceOf l k1, balanceOf l k2 with
  | Some b1, Some b2 =>
    match integerOfFloat b1, integerOfFloat b2 with
    | Some (false, n1), Some (false, n2) => Some (n1 + n2)%N
    | _, _ => None
    end
  | _, _ => None
  end.

End Fixture.


(** ** Further observations *)

(** The line [getHistory] writes for one entry of the history. *)
Definition historyLine {L : GoLib} (response : KeyModification) : string :=
  if Value_ge_0 (Value response) then "+" +:+ Value response else Value response.

(** An outcome that is no success: a response with the error status, or a
    panic. *)
Definition unsuccessful (o : Outcome) : Prop :=
  match o with
  | Return response => Status response = shim_ERROR
  | Panic _ => True
  end.

(** The calls of a loop of [getHistory] that went [n] times through
    [HasNext] and [Next]. *)
Definition iterations (n : nat) : list PortCall :=
  concat (replicate n [CHasNext; CNext]).

(** ** More peers and ledgers for the concrete runs *)
Module Scenario.
Import Fixture.

(** A peer on which every read fails with [e]. *)
Definition peerReadsFail (e : error) : Ports :=
  mkPorts (fun _ => Some e) (fun _ _ => None) (fun _ => None)
          (fun _ _ _ => shim_Success PNil)
          (fun _ => (Some [], None)).

(** A peer on which every delete fails with [e]. *)
Definition peerDeletesFail (e : error) : Ports :=
  mkPorts (fun _ => None) (fun _ _ => None) (fun _ => Some e)
          (fun _ _ _ => shim_Success PNil)
          (fun _ => (Some [], None)).

(** A peer on which the writes under [key], and only these, fail with [e]. *)
Definition peerWriteFailsOn (key : string) (e : error) : Ports :=
  mkPorts (fun _ => None)
          (fun k _ => if String.eqb k key then Some e else None)
          (fun _ => None)
          (fun _ _ _ => shim_Success PNil)
          (fun _ => (Some [], None)).

(** A peer whose history of any key is [historyIterator]. *)
Definition peerHistoryOf (historyIterator : HistoryIterator) : Ports :=
  mkPorts (fun _ => None) (fun _ _ => None) (fun _ => None)
          (fun _ _ _ => shim_Success PNil)
          (fun _ => (Some historyIterator, None)).

Definition entry (value : Bytes) : KeyModification :=
  mkKeyModification "tx" value false.

(** [bank] with a third key, whose bytes are no account. *)
Definition bankWithScrap : gmap string Bytes :=
  <["ACC-9" := "not a bank account"]> bank.

(** A letter in lower case, as [strconv] compares the names below. *)
Definition lowerAscii (c : ascii) : ascii :=
  let n := nat_of_ascii c in
  if (65 <=? n)%nat && (n <=? 90)%nat then ascii_of_nat (n + 32) else c.

Fixpoint lowerString (s : string) : string :=
  match s with
  | EmptyString => EmptyString
  | String c s' => String (lowerAscii c) (lowerString s')
  end.

Definition oneOf (s : string) (names : list string) : bool :=
  existsb (String.eqb s) names.

(** [strconv.ParseFloat(s, 64)] as in [Fixture], and on the texts that
    name no number and that Go reads all the same, with a nil error: [nan],
    and [inf] and [infinity] with or without a sign, in any case of the
    letters. *)
Definition ParseFloatSpecial (s : string) : float * option error :=
  if oneOf (lowerString s) ["nan"] then (PrimFloat.nan, None)
  else if oneOf (lowerString s) ["inf"; "+inf"; "infinity"; "+infinity"]
  then (PrimFloat.infinity, None)
  else if oneOf (lowerString s) ["-inf"; "-infinity"]
  then (PrimFloat.neg_infinity, None)
  else ParseFloat s.

(** The fragment with these texts read as Go reads them. *)
Definition libSpecial : GoLib :=
  mkGoLib Unmarshal Marshal ParseFloatSpecial (fun _ => true).

End Scenario.

(** * Properties *)

(** ** Binary64 subtraction and order

    The sufficiency check of [transfer] tests the sign of a difference.
    These lemmas relate it to the order of the two operands, from the
    specification of the primitive floats ([SpecFloat], [FloatAxioms]). *)

Section Binary64.

Local Open Scope Z_scope.

Lemma digits2_pos_bounds (m : positive) :
  2 ^ (Z.pos (digits2_pos m) - 1) <= Z.pos m < 2 ^ Z.pos (digits2_pos m).
Proof.
  induction m as [m IH | m IH |]; cbn [digits2_pos].
  - rewrite Pos2Z.inj_succ.
    replace (Z.succ (Z.pos (digits2_pos m)) - 1) with (Z.succ (Z.pos (digits2_pos m) - 1)) by lia.
    rewrite !Z.pow_succ_r by lia. lia.
  - rewrite Pos2Z.inj_succ.
    replace (Z.succ (Z.pos (digits2_pos m)) - 1) with (Z.succ (Z.pos (digits2_pos m) - 1)) by lia.
    rewrite !Z.pow_succ_r by lia. lia.
  - cbn. lia.
Qed.

Lemma iter_xO_value (m d : positive) :
  Z.pos (Pos.iter xO m d) = Z.pos m * 2 ^ Z.pos d.
Proof.
  induction d as [| d IH] using Pos.peano_ind.
  - cbn. lia.
  - rewrite Pos.iter_succ, Pos2Z.inj_succ, Z.pow_succ_r by lia.
    rewrite Pos2Z.inj_xO, IH. lia.
Qed.

Lemma shl_align_value (m : positive) (e e' : Z) :
  e' <= e -> Z.pos (fst (shl_align m e e')) = Z.pos m * 2 ^ (e - e').
Proof.
  intros Hle. unfold shl_align.
  destruct (e' - e) as [| p | p] eqn:Hd.
  - replace (e - e') with 0 by lia. cbn [fst]. lia.
  - lia.
  - cbn [fst]. rewrite iter_xO_value. f_equal. f_equal. lia.
Qed.

Lemma bounded_emin (m : positive) (e : Z) :
  bounded prec emax m e = true -> emin <= e.
Proof.
  unfold bounded, canonical_mantissa, fexp. intros H.
  apply andb_true_iff in H as [H _]. apply Z.eqb_eq in H. lia.
Qed.

Lemma bounded_digits (m : positive) (e : Z) :
  bounded prec emax m e = true -> Z.pos (digits2_pos m) <= prec.
Proof.
  unfold bounded, canonical_mantissa, fexp. intros H.
  apply andb_true_iff in H as [H _]. apply Z.eqb_eq in H. lia.
Qed.

Lemma bounded_normal (m : positive) (e : Z) :
  bounded prec emax m e = true -> emin < e -> Z.pos (digits2_pos m) = prec.
Proof.
  unfold bounded, canonical_mantissa, fexp. intros H.
  apply andb_true_iff in H as [H _]. apply Z.eqb_eq in H. lia.
Qed.

(** A canonical float with the larger exponent is the larger one. *)
Lemma canonical_lt (m1 m2 : positive) (e1 e2 : Z) :
  bounded prec emax m1 e1 = true -> bounded prec emax m2 e2 = true ->
  e1 < e2 -> Z.pos m1 < Z.pos m2 * 2 ^ (e2 - e1).
Proof.
  intros H1 H2 Hlt.
  pose proof (bounded_emin _ _ H1) as Hmin.
  pose proof (bounded_digits _ _ H1) as Hd1.
  assert (Hd2 : Z.pos (digits2_pos m2) = prec) by (apply (bounded_normal _ _ H2); lia).
  pose proof (digits2_pos_bounds m1) as [_ Hu].
  pose proof (digits2_pos_bounds m2) as [Hl _].
  rewrite Hd2 in Hl.
  assert (2 ^ Z.pos (digits2_pos m1) <= 2 ^ prec) by (apply Z.pow_le_mono_r; lia).
  assert (2 ^ 1 <= 2 ^ (e2 - e1)) by (apply Z.pow_le_mono_r; lia).
  replace (2 ^ prec) with (2 * 2 ^ (prec - 1)) in * by reflexivity.
  change (2 ^ 1) with 2 in *.
  nia.
Qed.


(** On canonical finite floats [SFcompare] compares the mantissas aligned to
    the smaller exponent. *)
Lemma SFcompare_finite (sx sy : bool) (mx my : positive) (ex ey : Z) :
  bounded prec emax mx ex = true -> bounded prec emax my ey = true ->
  SFcompare (S754_finite sx mx ex) (S754_finite sy my ey) =
  Some (cond_Zopp sx (Z.pos (fst (shl_align mx ex (Z.min ex ey))))
        ?= cond_Zopp sy (Z.pos (fst (shl_align my ey (Z.min ex ey))))).
Proof.
  intros Hx Hy.
  rewrite !shl_align_value by lia.
  assert (Hpx : 0 < Z.pos mx * 2 ^ (ex - Z.min ex ey))
    by (apply Z.mul_pos_pos; [lia | apply Z.pow_pos_nonneg; lia]).
  assert (Hpy : 0 < Z.pos my * 2 ^ (ey - Z.min ex ey))
    by (apply Z.mul_pos_pos; [lia | apply Z.pow_pos_nonneg; lia]).
  assert (Hcmp : (ex ?= ey) = Eq /\ ex = ey
              \/ (ex ?= ey) = Lt /\ ex < ey
              \/ (ex ?= ey) = Gt /\ ey < ex)
    by (destruct (Z.compare_spec ex ey); auto).
  unfold SFcompare, cond_Zopp.
  destruct sx, sy; f_equal.
  - rewrite Z.compare_opp.
    destruct Hcmp as [[-> He] | [[-> He] | [-> He]]].
    + subst ey. rewrite Z.min_id, Z.sub_diag, !Z.mul_1_r.
      change (Z.pos my ?= Z.pos mx) with (my ?= mx)%positive.
      rewrite Pos.compare_cont_spec, (Pos.compare_antisym my mx).
      destruct (my ?= mx)%positive; reflexivity.
    + symmetry. apply Z.compare_gt_iff.
      rewrite Z.min_l, Z.sub_diag, Z.mul_1_r by lia.
      apply canonical_lt; assumption.
    + symmetry. apply Z.compare_lt_iff.
      rewrite Z.min_r, Z.sub_diag, Z.mul_1_r by lia.
      apply canonical_lt; assumption.
  - symmetry. apply Z.compare_lt_iff. lia.
  - symmetry. apply Z.compare_gt_iff. lia.
  - destruct Hcmp as [[-> He] | [[-> He] | [-> He]]].
    + subst ey. rewrite Z.min_id, Z.sub_diag, !Z.mul_1_r.
      change (Z.pos mx ?= Z.pos my) with (mx ?= my)%positive.
      rewrite Pos.compare_cont_spec.
      destruct (mx ?= my)%positive; reflexivity.
    + symmetry. apply Z.compare_lt_iff.
      rewrite Z.min_l, Z.sub_diag, Z.mul_1_r by lia.
      apply canonical_lt; assumption.
    + symmetry. apply Z.compare_gt_iff.
      rewrite Z.min_r, Z.sub_diag, Z.mul_1_r by lia.
      apply canonical_lt; assumption.
Qed.


(** Rounding a non-negative integer never gives a negative float. *)
Lemma binary_normalize_nonneg (m e : Z) :
  0 <= m -> SFltb (binary_normalize prec emax m e false) SFzero = false.
Proof.
  intros Hm. destruct m as [| p | p]; [reflexivity | | lia].
  unfold binary_normalize, binary_round, binary_round_aux.
  destruct (shl_align _ _ _) as [mz ez].
  destruct (shr_fexp _ _ _ _ _) as [mrs' e'].
  destruct (shr_fexp _ _ _ _ _) as [mrs'' e''].
  destruct (shr_m mrs''); [reflexivity | | reflexivity].
  destruct (_ <=? _); reflexivity.
Qed.

Lemma shr_1_half (r : shr_record) :
  0 <= shr_m r -> shr_m (shr_1 r) = shr_m r / 2.
Proof.
  destruct r as [m r s]. cbn [shr_m]. intros Hm.
  destruct m as [| [p | p |] | p]; cbn [shr_1 shr_m]; try lia.
  - reflexivity.
  - apply Z.div_unique with (r := 1); lia.
  - apply Z.div_unique with (r := 0); lia.
  - reflexivity.
Qed.

Lemma iter_shr_1 (p : positive) (r : shr_record) :
  0 <= shr_m r -> shr_m (SpecFloat.iter_pos shr_1 p r) = shr_m r / 2 ^ Z.pos p.
Proof.
  revert r. induction p as [p IH | p IH |]; intros r Hr; cbn [SpecFloat.iter_pos].
  - assert (H1 : 0 <= shr_m (shr_1 r)) by (rewrite shr_1_half by lia; apply Z.div_pos; lia).
    assert (H2 : 0 <= shr_m (SpecFloat.iter_pos shr_1 p (shr_1 r)))
      by (rewrite IH by lia; apply Z.div_pos; [lia | apply Z.pow_pos_nonneg; lia]).
    rewrite IH, IH, shr_1_half by lia.
    rewrite !Zdiv_Zdiv by (try apply Z.pow_nonneg; lia).
    f_equal. replace (Z.pos p~1) with (1 + Z.pos p + Z.pos p) by lia.
    rewrite !Z.pow_add_r by lia. lia.
  - assert (H2 : 0 <= shr_m (SpecFloat.iter_pos shr_1 p r))
      by (rewrite IH by lia; apply Z.div_pos; [lia | apply Z.pow_pos_nonneg; lia]).
    rewrite IH, IH by lia.
    rewrite !Zdiv_Zdiv by (try apply Z.pow_nonneg; lia).
    f_equal. replace (Z.pos p~0) with (Z.pos p + Z.pos p) by lia.
    rewrite !Z.pow_add_r by lia. lia.
  - rewrite shr_1_half by lia. reflexivity.
Qed.

Lemma shr_record_of_loc_m (m : Z) (l : location) :
  shr_m (shr_record_of_loc m l) = m.
Proof. destruct l as [| []]; reflexivity. Qed.

(** Above [emin] the shift that brings a mantissa to the format keeps it
    positive. *)
Lemma shr_fexp_pos (m e : Z) (l : location) :
  0 < m -> emin <= e ->
  0 < shr_m (fst (shr_fexp prec emax m e l)) /\
  emin <= snd (shr_fexp prec emax m e l).
Proof.
  intros Hm He. unfold shr_fexp, shr.
  destruct m as [| q | q]; try lia. cbn [Zdigits2].
  destruct (fexp prec emax (Z.pos (digits2_pos q) + e) - e) as [| p | p] eqn:Hn;
    cbn [fst snd]; rewrite ?shr_record_of_loc_m; try (split; lia).
  rewrite iter_shr_1 by (rewrite shr_record_of_loc_m; lia).
  rewrite shr_record_of_loc_m.
  split; [| lia].
  unfold fexp in Hn.
  assert (Hp : Z.pos p <= Z.pos (digits2_pos q) - 1)
    by (unfold SpecFloat.emin in Hn, He; change prec with 53 in Hn, He; lia).
  pose proof (digits2_pos_bounds q) as [Hl _].
  assert (2 ^ Z.pos p <= 2 ^ (Z.pos (digits2_pos q) - 1))
    by (apply Z.pow_le_mono_r; lia).
  apply Z.div_str_pos. split; [apply Z.pow_pos_nonneg; lia | lia].
Qed.

Lemma round_nearest_even_pos (m : Z) (l : location) :
  0 < m -> 0 < round_nearest_even m l.
Proof.
  intros Hm. destruct l as [| []]; cbn [round_nearest_even]; try lia.
  destruct (Z.even m); lia.
Qed.

(** Rounding a negative integer above [emin] gives a negative float, never
    a zero. *)
Lemma binary_normalize_neg (m e : Z) :
  m < 0 -> emin <= e ->
  SFltb (binary_normalize prec emax m e false) SFzero = true.
Proof.
  intros Hm He. destruct m as [| p | p]; try lia.
  unfold binary_normalize, binary_round, binary_round_aux.
  destruct (shl_align p e _) as [mz ez] eqn:Ha.
  assert (Hez : emin <= ez).
  { unfold shl_align in Ha.
    destruct (_ - e) eqn:Hd; inversion Ha; subst; try lia.
    unfold fexp. lia. }
  pose proof (shr_fexp_pos (Z.pos mz) ez loc_Exact ltac:(lia) Hez) as [H1 H1'].
  destruct (shr_fexp prec emax (Z.pos mz) ez loc_Exact) as [mrs' e'].
  cbn [fst snd] in H1, H1'.
  pose proof (shr_fexp_pos _ e' loc_Exact
                (round_nearest_even_pos _ (loc_of_shr_record mrs') H1) H1') as [H2 _].
  destruct (shr_fexp prec emax _ e' loc_Exact) as [mrs'' e''].
  cbn [fst] in H2.
  destruct (shr_m mrs''); try lia.
  destruct (_ <=? _); reflexivity.
Qed.

(** On valid floats, [x - y] is not below zero when [y <= x]. *)
Lemma SFsub_leb (x y : spec_float) :
  valid_binary x = true -> valid_binary y = true ->
  SFleb y x = true -> SFltb (SF64sub x y) SFzero = false.
Proof.
  intros Hx Hy Hle.
  destruct x as [sx | sx | | sx mx ex], y as [sy | sy | | sy my ey];
    try discriminate Hle;
    try (destruct sx, sy; try discriminate Hle; reflexivity);
    try (destruct sx; try discriminate Hle; reflexivity);
    try (destruct sy; try discriminate Hle; reflexivity).
  unfold SFleb in Hle. cbn [valid_binary] in Hx, Hy.
  rewrite (SFcompare_finite _ _ _ _ _ _ Hy Hx), Z.min_comm in Hle.
  unfold SF64sub, SFsub. apply binary_normalize_nonneg.
  change (IntDef.Z.min ex ey) with (Z.min ex ey).
  destruct (_ ?= _) eqn:Hc; try discriminate Hle.
  - apply Z.compare_eq in Hc. lia.
  - pose proof (proj1 (Z.compare_lt_iff _ _) Hc). lia.
Qed.

(** On valid floats, [x - y] is below zero when [x < y]. *)
Lemma SFsub_ltb (x y : spec_float) :
  valid_binary x = true -> valid_binary y = true ->
  SFltb x y = true -> SFltb (SF64sub x y) SFzero = true.
Proof.
  intros Hx Hy Hlt.
  destruct x as [sx | sx | | sx mx ex], y as [sy | sy | | sy my ey];
    try discriminate Hlt;
    try (destruct sx, sy; try discriminate Hlt; reflexivity);
    try (destruct sx; try discriminate Hlt; reflexivity);
    try (destruct sy; try discriminate Hlt; reflexivity).
  unfold SFltb in Hlt. cbn [valid_binary] in Hx, Hy.
  rewrite (SFcompare_finite _ _ _ _ _ _ Hx Hy) in Hlt.
  unfold SF64sub, SFsub.
  change (IntDef.Z.min ex ey) with (Z.min ex ey).
  apply binary_normalize_neg.
  - destruct (_ ?= _) eqn:Hc; try discriminate Hlt.
    pose proof (proj1 (Z.compare_lt_iff _ _) Hc). lia.
  - pose proof (bounded_emin _ _ Hx). pose proof (bounded_emin _ _ Hy). lia.
Qed.

(** The sufficiency check of [transfer] passes when the amount is at most
    the balance. *)
Lemma float_sub_leb (x y : float) :
  PrimFloat.leb y x = true -> PrimFloat.ltb (PrimFloat.sub x y) 0%float = false.
Proof.
  rewrite FloatAxioms.leb_spec, FloatAxioms.ltb_spec, FloatAxioms.sub_spec.
  apply SFsub_leb; apply Prim2SF_valid.
Qed.

(** It rejects when the balance is less than the amount. *)
Lemma float_sub_ltb (x y : float) :
  PrimFloat.ltb x y = true -> PrimFloat.ltb (PrimFloat.sub x y) 0%float = true.
Proof.
  rewrite !FloatAxioms.ltb_spec, FloatAxioms.sub_spec.
  apply SFsub_ltb; apply Prim2SF_valid.
Qed.

End Binary64.

(** ** The stub *)

Section StubFacts.

Lemma GetState_ok (stub : Stub) (key : string) :
  GetState_fault (ports stub) key = None ->
  GetState stub key = (logCall (CGetState key) stub, (ledger stub !! key, None)).
Proof. intros H. unfold GetState. rewrite H. reflexivity. Qed.

Lemma GetState_failed (stub : Stub) (key : string) (e : error) :
  GetState_fault (ports stub) key = Some e ->
  GetState stub key = (logCall (CGetState key) stub, (None, Some e)).
Proof. intros H. unfold GetState. rewrite H. reflexivity. Qed.

Lemma PutState_ok (stub : Stub) (key : string) (value : Bytes) :
  PutState_fault (ports stub) key value = None ->
  PutState stub key value =
  (setLedger (<[key := value]> (ledger stub)) (logCall (CPutState key value) stub), None).
Proof. intros H. unfold PutState. rewrite H. reflexivity. Qed.

Lemma PutState_failed (stub : Stub) (key : string) (value : Bytes) (e : error) :
  PutState_fault (ports stub) key value = Some e ->
  PutState stub key value = (logCall (CPutState key value) stub, Some e).
Proof. intros H. unfold PutState. rewrite H. reflexivity. Qed.

Lemma writesOf_app (cs ds : list PortCall) :
  writesOf (cs ++ ds) = (writesOf cs ++ writesOf ds)%list.
Proof. apply List.filter_app. Qed.

End StubFacts.

(** ** The transfer engine *)

Section Transfer.
Context {L : GoLib}.

(** C4, as the code has it: a [transfer] with three arguments whose amount
    [strconv.ParseFloat] rejects with an error fails with the amount-parse
    message, and it returns the stub it was given: no port call, so no
    ledger read or write, comes before the failure.  (A text that names no
    number but that [strconv.ParseFloat] reads without an error, such as
    NaN or Inf, is not rejected here.) *)
Theorem transfer_amount_parse_error (stub : Stub) (from to amountText : string) :
  snd (strconv_ParseFloat amountText) <> None ->
  transfer stub [from; to; amountText] =
    (stub, Return (shim_Error "failed to convert amount string to number")) /\
  calls (fst (transfer stub [from; to; amountText])) = calls stub.
Proof.
  intros Herr. unfold transfer.
  destruct (strconv_ParseFloat amountText) as [amount [e |]]; cbn [snd] in Herr.
  - split; reflexivity.
  - contradiction.
Qed.

(** What [transfer] does once the amount is parsed and the sender's record
    is read and decoded: the run up to the sufficiency check. *)
Lemma transfer_to_check (stub : Stub) (from to amountText : string)
    (amount : float) (senderState : Bytes) (sender : BankAccount) :
  strconv_ParseFloat amountText = (amount, None) ->
  GetState_fault (ports stub) from = None ->
  ledger stub !! from = Some senderState ->
  json_Unmarshal senderState = (sender, None) ->
  overdrawn (Balance sender) amount = true ->
  transfer stub [from; to; amountText] =
    (logCall (CGetState from) stub,
     Return (shim_Error "sender doesn't have enough money")).
Proof.
  intros Hparse Hfault Hstate Hdecode Hcheck. unfold transfer.
  rewrite Hparse, (GetState_ok _ _ Hfault), Hstate, Hdecode, Hcheck.
  reflexivity.
Qed.

(** C3: when the sender exists and its balance is less than the amount,
    [transfer] fails with the insufficient-funds message; the ledger is as
    before and no write was issued (the one port call is the read of the
    sender).  The receiver need not exist. *)
Theorem transfer_insufficient_funds (stub : Stub) (from to amountText : string)
    (amount : float) (senderState : Bytes) (sender : BankAccount) :
  strconv_ParseFloat amountText = (amount, None) ->
  GetState_fault (ports stub) from = None ->
  ledger stub !! from = Some senderState ->
  json_Unmarshal senderState = (sender, None) ->
  PrimFloat.ltb (Balance sender) amount = true ->
  snd (transfer stub [from; to; amountText]) =
    Return (shim_Error "sender doesn't have enough money") /\
  ledger (fst (transfer stub [from; to; amountText])) = ledger stub /\
  writesOf (calls (fst (transfer stub [from; to; amountText]))) = writesOf (calls stub) /\
  issued stub (fst (transfer stub [from; to; amountText])) [CGetState from].
Proof.
  intros Hparse Hfault Hstate Hdecode Hlt.
  rewrite (transfer_to_check stub from to amountText amount senderState sender)
    by (try assumption; apply float_sub_ltb, Hlt).
  cbn [fst snd logCall ledger calls]. repeat split.
  rewrite writesOf_app. cbn. apply app_nil_r.
Qed.

(** What [transfer] does when the check passes and the receiver's record is
    read and decoded: both writes are attempted, and the answer is success
    whatever the two writes reported. *)
Lemma transfer_past_check (stub : Stub) (from to amountText : string)
    (amount : float) (senderState receiverState : Bytes)
    (sender receiver : BankAccount) :
  strconv_ParseFloat amountText = (amount, None) ->
  GetState_fault (ports stub) from = None ->
  GetState_fault (ports stub) to = None ->
  ledger stub !! from = Some senderState ->
  ledger stub !! to = Some receiverState ->
  json_Unmarshal senderState = (sender, None) ->
  json_Unmarshal receiverState = (receiver, None) ->
  overdrawn (Balance sender) amount = false ->
  transfer stub [from; to; amountText] =
    (fst (PutState
            (fst (PutState (logCall (CGetState to) (logCall (CGetState from) stub))
                    from
                    (json_Marshal
                       (withBalance sender (PrimFloat.sub (Balance sender) amount)))))
            to
            (json_Marshal
               (withBalance receiver (PrimFloat.add (Balance receiver) amount)))),
     Return (shim_Success PNil)).
Proof.
  intros Hparse Hf1 Hf2 Hs1 Hs2 Hd1 Hd2 Hcheck. unfold transfer.
  rewrite Hparse, (GetState_ok _ _ Hf1), Hs1, Hd1, Hcheck.
  rewrite (GetState_ok (logCall (CGetState from) stub) to Hf2).
  cbn [ledger logCall]. rewrite Hs2, Hd2.
  destruct (PutState _ from _) as [stub1 err1]. cbn [fst].
  destruct (PutState stub1 to _) as [stub2 err2]. reflexivity.
Qed.

(** C2, as the code has it: for distinct accounts whose records decode, an
    amount that parses and is at most the sender's balance, and a peer on
    which the two reads and the two writes do not fail, [transfer] succeeds;
    afterwards the sender's stored balance is its balance minus the amount
    and the receiver's is its balance plus the amount, both in binary64
    arithmetic, and every other record is as before.  The records written
    are assumed to decode to themselves. *)
Theorem transfer_debits_and_credits (stub : Stub) (from to amountText : string)
    (amount : float) (senderState receiverState : Bytes)
    (sender receiver : BankAccount) :
  from <> to ->
  strconv_ParseFloat amountText = (amount, None) ->
  GetState_fault (ports stub) from = None ->
  GetState_fault (ports stub) to = None ->
  ledger stub !! from = Some senderState ->
  ledger stub !! to = Some receiverState ->
  json_Unmarshal senderState = (sender, None) ->
  json_Unmarshal receiverState = (receiver, None) ->
  PrimFloat.leb amount (Balance sender) = true ->
  (forall value, PutState_fault (ports stub) from value = None) ->
  (forall value, PutState_fault (ports stub) to value = None) ->
  decodesToItself (withBalance sender (PrimFloat.sub (Balance sender) amount)) ->
  decodesToItself (withBalance receiver (PrimFloat.add (Balance receiver) amount)) ->
  snd (transfer stub [from; to; amountText]) = Return (shim_Success PNil) /\
  storedBalance (ledger (fst (transfer stub [from; to; amountText]))) from
    = Some (PrimFloat.sub (Balance sender) amount) /\
  storedBalance (ledger (fst (transfer stub [from; to; amountText]))) to
    = Some (PrimFloat.add (Balance receiver) amount) /\
  (forall key, key <> from -> key <> to ->
     ledger (fst (transfer stub [from; to; amountText])) !! key = ledger stub !! key).
Proof.
  intros Hne Hparse Hf1 Hf2 Hs1 Hs2 Hd1 Hd2 Hle Hp1 Hp2 Hr1 Hr2.
  rewrite (transfer_past_check stub from to amountText amount
             senderState receiverState sender receiver)
    by (try assumption; apply float_sub_leb, Hle).
  rewrite (PutState_ok _ from) by apply Hp1. cbn [fst].
  rewrite (PutState_ok _ to) by apply Hp2.
  cbn [fst snd ledger setLedger logCall]. unfold storedBalance.
  unfold decodesToItself in Hr1, Hr2. repeat split.
  - rewrite lookup_insert_ne, lookup_insert_eq by congruence.
    rewrite Hr1. reflexivity.
  - rewrite lookup_insert_eq. rewrite Hr2. reflexivity.
  - intros key H1 H2. rewrite !lookup_insert_ne by congruence. reflexivity.
Qed.

(** C10: a transfer from an account to itself, of an amount that parses
    and is at most its balance, succeeds and leaves the account with its
    balance plus the amount: the credit, computed from the record as it was
    read, is written last under the same key.  The peer is one on which the
    reads and writes of that key do not fail, and the record written is
    assumed to decode to itself. *)
Theorem transfer_to_self_credits (stub : Stub) (account amountText : string)
    (amount : float) (state : Bytes) (record : BankAccount) :
  strconv_ParseFloat amountText = (amount, None) ->
  GetState_fault (ports stub) account = None ->
  ledger stub !! account = Some state ->
  json_Unmarshal state = (record, None) ->
  PrimFloat.leb amount (Balance record) = true ->
  (forall value, PutState_fault (ports stub) account value = None) ->
  decodesToItself (withBalance record (PrimFloat.add (Balance record) amount)) ->
  snd (transfer stub [account; account; amountText]) = Return (shim_Success PNil) /\
  ledger (fst (transfer stub [account; account; amountText])) !! account
    = Some (json_Marshal
              (withBalance record (PrimFloat.add (Balance record) amount))) /\
  storedBalance (ledger (fst (transfer stub [account; account; amountText]))) account
    = Some (PrimFloat.add (Balance record) amount) /\
  writesOf (calls (fst (transfer stub [account; account; amountText]))) =
    (writesOf (calls stub) ++
     [CPutState account
        (json_Marshal (withBalance record (PrimFloat.sub (Balance record) amount)));
      CPutState account
        (json_Marshal (withBalance record (PrimFloat.add (Balance record) amount)))])%list.
Proof.
  intros Hparse Hf Hs Hd Hle Hp Hr.
  rewrite (transfer_past_check stub account account amountText amount
             state state record record)
    by (try assumption; apply float_sub_leb, Hle).
  rewrite (PutState_ok (logCall (CGetState account) (logCall (CGetState account) stub)))
    by apply Hp.
  cbn [fst]. rewrite (PutState_ok _ account) by apply Hp.
  cbn [fst snd ledger setLedger logCall calls]. unfold storedBalance.
  unfold decodesToItself in Hr. rewrite lookup_insert_eq, Hr. repeat split.
  rewrite !writesOf_app. cbn. rewrite !app_nil_r, <- app_assoc. reflexivity.
Qed.

End Transfer.

(** ** The account lifecycle *)

Section Lifecycle.
Context {L : GoLib}.

(** [addAccount] when the registry reports an error: the message is built
    from the identifier and from [err], which is nil at that point. *)
Lemma addAccount_registry_error (stub : Stub) (p0 : string) (account : BankAccount) :
  json_Unmarshal p0 = (account, None) ->
  Status (registryReply stub account) = shim_ERROR ->
  addAccount stub [p0] =
    (logCall (registryCall account) stub,
     Return (shim_Error
       ("failed to create bank account for person with id "
        +:+ fmt_d (PersonID account) +:+ ", due to " +:+ "%!s(<nil>)"))).
Proof.
  intros Hdecode Hstatus. unfold addAccount, InvokeChaincode.
  rewrite Hdecode. fold (registryReply stub account). rewrite Hstatus.
  reflexivity.
Qed.

(** [addAccount] up to the test for an existing record. *)
Lemma addAccount_to_lookup (stub : Stub) (p0 : string) (account : BankAccount) :
  json_Unmarshal p0 = (account, None) ->
  Status (registryReply stub account) <> shim_ERROR ->
  GetState_fault (ports stub) (AccountNumber account) = None ->
  addAccount stub [p0] =
    match ledger stub !! AccountNumber account with
    | Some _ =>
      (logCall (CGetState (AccountNumber account)) (logCall (registryCall account) stub),
       Return (shim_Error
         ("bank account with number " +:+ AccountNumber account +:+ " already exists")))
    | None =>
      (fst (PutState
              (logCall (CGetState (AccountNumber account))
                 (logCall (registryCall account) stub))
              (AccountNumber account) p0),
       Return (shim_Success PNil))
    end.
Proof.
  intros Hdecode Hstatus Hfault. unfold addAccount, InvokeChaincode.
  rewrite Hdecode. fold (registryReply stub account).
  apply Z.eqb_neq in Hstatus. rewrite Hstatus.
  rewrite (GetState_ok (logCall _ stub) (AccountNumber account) Hfault).
  cbn [ledger logCall]. fold (registryCall account).
  destruct (ledger stub !! AccountNumber account); [reflexivity |].
  destruct (PutState _ _ _) as [stub' err]. reflexivity.
Qed.

(** X7: [addAccount] writes under a key only after reading that it is
    absent: whatever the arguments and the peer, a record that was stored
    is still stored, unchanged. *)
Lemma addAccount_never_overwrites (stub : Stub) (params : list string)
    (key : string) (value : Bytes) :
  ledger stub !! key = Some value ->
  ledger (fst (addAccount stub params)) !! key = Some value.
Proof.
  intros Hkey. unfold addAccount, InvokeChaincode, GetState, PutState.
  destruct params as [| p0 [| ? ?]]; try exact Hkey.
  destruct (json_Unmarshal p0) as [account [e |]]; [exact Hkey |].
  destruct (_ =? _)%Z; [exact Hkey |].
  cbn [ports logCall ledger].
  destruct (GetState_fault _ _); [exact Hkey |].
  destruct (ledger stub !! AccountNumber account) eqn:Hlookup; [exact Hkey |].
  destruct (PutState_fault _ _ _); cbn [fst ledger setLedger logCall]; [exact Hkey |].
  rewrite lookup_insert_ne; [exact Hkey |].
  intros Heq. rewrite Heq in Hlookup. congruence.
Qed.

(** C5: an [addAccount] for an account number that already has a record
    fails and leaves the ledger as it was, with no write issued, whatever
    the registry and the read report; when the registry accepts the owner
    and the read does not fail, the failure is the already-exists message.
    The existence test comes before the only write of the handler. *)
Theorem addAccount_already_exists (stub : Stub) (p0 : string)
    (account : BankAccount) (existing : Bytes) :
  json_Unmarshal p0 = (account, None) ->
  ledger stub !! AccountNumber account = Some existing ->
  (exists msg, snd (addAccount stub [p0]) = Return (shim_Error msg)) /\
  ledger (fst (addAccount stub [p0])) = ledger stub /\
  writesOf (calls (fst (addAccount stub [p0]))) = writesOf (calls stub) /\
  (Status (registryReply stub account) <> shim_ERROR ->
   GetState_fault (ports stub) (AccountNumber account) = None ->
   snd (addAccount stub [p0]) =
     Return (shim_Error
       ("bank account with number " +:+ AccountNumber account +:+ " already exists"))).
Proof.
  intros Hdecode Hexists.
  destruct (Z.eq_dec (Status (registryReply stub account)) shim_ERROR) as [Herr | Hok].
  { rewrite (addAccount_registry_error stub p0 account Hdecode Herr).
    cbn [fst snd ledger calls logCall]. rewrite writesOf_app. cbn.
    rewrite app_nil_r. repeat split; eauto. intros H. contradiction. }
  destruct (GetState_fault (ports stub) (AccountNumber account)) as [e |] eqn:Hfault.
  { unfold addAccount, InvokeChaincode. rewrite Hdecode.
    fold (registryReply stub account).
    apply Z.eqb_neq in Hok. rewrite Hok.
    rewrite (GetState_failed (logCall _ stub) (AccountNumber account) e Hfault).
    cbn [fst snd ledger calls logCall]. rewrite !writesOf_app. cbn.
    rewrite !app_nil_r. repeat split; eauto. intros _ H. discriminate. }
  rewrite (addAccount_to_lookup stub p0 account Hdecode Hok Hfault), Hexists.
  cbn [fst snd ledger calls logCall]. rewrite !writesOf_app. cbn.
  rewrite !app_nil_r. repeat split; eauto.
Qed.

(** [addAccount] when the write reports a fault: the answer is success and
    the record is not stored. *)
Lemma addAccount_write_fault (stub : Stub) (p0 : string) (account : BankAccount)
    (e : error) :
  json_Unmarshal p0 = (account, None) ->
  Status (registryReply stub account) <> shim_ERROR ->
  GetState_fault (ports stub) (AccountNumber account) = None ->
  ledger stub !! AccountNumber account = None ->
  PutState_fault (ports stub) (AccountNumber account) p0 = Some e ->
  snd (addAccount stub [p0]) = Return (shim_Success PNil) /\
  ledger (fst (addAccount stub [p0])) = ledger stub.
Proof.
  intros Hdecode Hok Hfault Habsent Hput.
  rewrite (addAccount_to_lookup stub p0 account Hdecode Hok Hfault), Habsent.
  rewrite (PutState_failed _ _ _ e) by exact Hput.
  split; reflexivity.
Qed.

(** [getBalance] on a stored key: the payload is the selector applied to
    the bytes as they were read, whatever they are. *)
Lemma getBalance_of_stored (stub : Stub) (accountId : string) (accountState : Bytes) :
  GetState_fault (ports stub) accountId = None ->
  ledger stub !! accountId = Some accountState ->
  getBalance stub [accountId] =
    (logCall (CGetState accountId) stub,
     Return (shim_Success (PBalanceOf accountState))).
Proof.
  intros Hfault Hstate. unfold getBalance.
  rewrite (GetState_ok _ _ Hfault), Hstate. reflexivity.
Qed.

End Lifecycle.

(** ** The history *)

Section History.
Context {L : GoLib}.

(** [getHistory] does not look at the error of the query: it iterates over
    whatever came back, and panics on the nil iterator. *)
Lemma getHistory_ignores_query_error (stub : Stub) (accountId : string)
    (iterator : option HistoryIterator) (err : option error) :
  GetHistoryForKey_reply (ports stub) accountId = (iterator, err) ->
  getHistory stub [accountId] =
    match iterator with
    | None =>
      (logCall (CGetHistoryForKey accountId) stub,
       Panic "runtime error: invalid memory address or nil pointer dereference")
    | Some historyIterator =>
      historyLoop historyIterator (logCall (CGetHistoryForKey accountId) stub) []
    end.
Proof.
  intros Hreply. unfold getHistory, GetHistoryForKey. rewrite Hreply. reflexivity.
Qed.

(** A fault of [Next] in the middle of the iteration ends it with the
    history-read message. *)
Lemma historyLoop_next_fault (good : list KeyModification) (response : KeyModification)
    (e : error) (rest : HistoryIterator) (stub : Stub) (history : list string) :
  snd (historyLoop
         (map (fun r => (r, None)) good ++ (response, Some e) :: rest)%list
         stub history) =
    Return (shim_Error "failed get Next() for historyIterator").
Proof.
  revert stub history. induction good as [| r good IH]; intros stub history.
  - reflexivity.
  - cbn [map app historyLoop]. destruct (Value_ge_0 (Value r)); apply IH.
Qed.

End History.

(** ** The dispatcher *)

Section Dispatcher.
Context {L : GoLib}.

(** X3: a name that is not one of the five operations is answered with the
    unknown-operation message, and no port is called. *)
Lemma Invoke_unknown_operation (stub : Stub) (funcName : string)
    (params : list string) :
  invocation stub = (funcName, params) ->
  funcName <> "addAccount" -> funcName <> "delAccount" ->
  funcName <> "getBalance" -> funcName <> "transfer" ->
  funcName <> "getHistory" ->
  Invoke stub = (stub, Return (shim_Error "unknown operation")).
Proof.
  intros Hinv H1 H2 H3 H4 H5. unfold Invoke, GetFunctionAndParameters.
  rewrite Hinv. unfold actions. cbn [list_to_map foldr uncurry fst snd].
  rewrite !lookup_insert_ne by congruence. rewrite lookup_empty. reflexivity.
Qed.

(** A known name reaches its handler with the arguments unchanged. *)
Lemma Invoke_transfer (stub : Stub) (params : list string) :
  invocation stub = ("transfer", params) -> Invoke stub = transfer stub params.
Proof.
  intros Hinv. unfold Invoke, GetFunctionAndParameters. rewrite Hinv. reflexivity.
Qed.

End Dispatcher.

(** ** The handlers on concrete invocations *)

Section Runs.
Import Fixture.

(** C1, on the code: with a peer that refuses every write, whatever the
    error it gives, [addAccount] of a new account and [transfer] between
    two accounts both issue their writes, are told of the fault, and still
    answer success; the ledger is as it was. *)
Theorem write_fault_answered_with_success (e : error) :
  PutState_fault (peerWritesFail e) "ACC-3" (Marshal acc3) = Some e /\
  snd (run (peerWritesFail e) bank "addAccount" [Marshal acc3])
    = Return (shim_Success PNil) /\
  writesOf (calls (fst (run (peerWritesFail e) bank "addAccount" [Marshal acc3])))
    = [CPutState "ACC-3" (Marshal acc3)] /\
  ledger (fst (run (peerWritesFail e) bank "addAccount" [Marshal acc3])) = bank /\
  snd (run (peerWritesFail e) bank "transfer" ["ACC-1"; "ACC-2"; "30"])
    = Return (shim_Success PNil) /\
  writesOf (calls (fst (run (peerWritesFail e) bank "transfer"
                          ["ACC-1"; "ACC-2"; "30"])))
    = [CPutState "ACC-1" (Marshal (withBalance acc1 70%float));
       CPutState "ACC-2" (Marshal (withBalance acc2 30%float))] /\
  ledger (fst (run (peerWritesFail e) bank "transfer" ["ACC-1"; "ACC-2"; "30"])) = bank.
Proof.
  split; [reflexivity |].
  assert (Hadd : @addAccount lib (stubOf (peerWritesFail e) bank "addAccount"
                                    [Marshal acc3]) [Marshal acc3]
                 = (mkStub (peerWritesFail e) ("addAccount", [Marshal acc3]) bank
                      [registryCall acc3; CGetState "ACC-3";
                       CPutState "ACC-3" (Marshal acc3)],
                    Return (shim_Success PNil))).
  { rewrite (@addAccount_to_lookup lib _ (Marshal acc3) acc3);
      [reflexivity | vm_compute; reflexivity | vm_compute; discriminate | reflexivity]. }
  assert (Hmove : @transfer lib (stubOf (peerWritesFail e) bank "transfer"
                                   ["ACC-1"; "ACC-2"; "30"]) ["ACC-1"; "ACC-2"; "30"]
                  = (mkStub (peerWritesFail e) ("transfer", ["ACC-1"; "ACC-2"; "30"]) bank
                       [CGetState "ACC-1"; CGetState "ACC-2";
                        CPutState "ACC-1" (Marshal (withBalance acc1 70%float));
                        CPutState "ACC-2" (Marshal (withBalance acc2 30%float))],
                     Return (shim_Success PNil))).
  { rewrite (@transfer_past_check lib _ "ACC-1" "ACC-2" "30" 30%float
               (Marshal acc1) (Marshal acc2) acc1 acc2);
      [reflexivity | vm_compute; reflexivity | reflexivity | reflexivity
      | vm_compute; reflexivity | vm_compute; reflexivity
      | vm_compute; reflexivity | vm_compute; reflexivity | vm_compute; reflexivity ]. }
  unfold run, Invoke, GetFunctionAndParameters, stubOf in *. cbn [invocation].
  change (actions !! "addAccount") with (Some (@addAccount lib)).
  change (actions !! "transfer") with (Some (@transfer lib)).
  cbv beta iota. rewrite Hadd, Hmove. repeat split.
Qed.

(** C2 fails on the code: the balances are binary64.  Moving 2 from an
    account holding 4 to one holding 2^53 - 1 succeeds and leaves 2 and
    2^53, since 2^53 + 1 is no binary64; the sum of the two balances was
    2^53 + 4 in binary64 (2^53 + 3 exactly) and is 2^53 + 2 afterwards. *)
Lemma transfer_total_not_conserved :
  "A" <> "B" /\
  balanceOf vault "A" = Some 4%float /\
  balanceOf vault "B" = Some 9007199254740991%float /\
  ParseFloat "2" = (2%float, None) /\
  PrimFloat.leb 2 4 = true /\
  snd (run peer vault "transfer" ["A"; "B"; "2"]) = Return (shim_Success PNil) /\
  balanceOf (ledger (fst (run peer vault "transfer" ["A"; "B"; "2"]))) "A"
    = Some 2%float /\
  balanceOf (ledger (fst (run peer vault "transfer" ["A"; "B"; "2"]))) "B"
    = Some 9007199254740992%float /\
  PrimFloat.add 2 9007199254740992 <> PrimFloat.add 4 9007199254740991 /\
  exactTotal vault "A" "B" = Some 9007199254740995%N /\
  exactTotal (ledger (fst (run peer vault "transfer" ["A"; "B"; "2"]))) "A" "B"
    = Some 9007199254740994%N.
Proof.
  split; [discriminate |].
  do 7 (split; [vm_compute; reflexivity |]).
  split; [| split; vm_compute; reflexivity].
  intros H. apply (f_equal Prim2SF) in H. vm_compute in H. discriminate.
Qed.

(** C6, on the code: whatever bytes are stored under the key, [getBalance]
    answers success with the selector on those bytes as payload; bytes that
    are no account, which do not decode, are answered in the same way, and
    no failure reports them. *)
Theorem getBalance_never_decodes (accountState : Bytes) :
  snd (run peer (holding accountState) "getBalance" ["ACC-9"])
    = Return (shim_Success (PBalanceOf accountState)) /\
  snd (Unmarshal "not a bank account") <> None /\
  snd (run peer (holding "not a bank account") "getBalance" ["ACC-9"])
    = Return (shim_Success (PBalanceOf "not a bank account")).
Proof.
  assert (Hget : forall raw,
             getBalance (stubOf peer (holding raw) "getBalance" ["ACC-9"]) ["ACC-9"]
             = (logCall (CGetState "ACC-9")
                  (stubOf peer (holding raw) "getBalance" ["ACC-9"]),
                Return (shim_Success (PBalanceOf raw)))).
  { intros raw. apply getBalance_of_stored; [reflexivity |].
    unfold holding, stubOf. cbn [ledger]. apply lookup_insert_eq. }
  unfold run, Invoke, GetFunctionAndParameters, stubOf in *. cbn [invocation].
  change (actions !! "getBalance") with (Some getBalance).
  cbv beta iota. rewrite !Hget. repeat split. vm_compute. discriminate.
Qed.

(** C7, on the code: when the registry rejects the owner, [addAccount]
    fails, and its message is the same whatever message and payload the
    registry replied with: it ends with the rendering of a nil error. *)
Theorem registry_reason_not_surfaced (reason : string) (payload : PayloadValue) :
  registryReply (stubOf (peerRegistryRejects reason payload) bank "addAccount"
                   [Marshal acc3]) acc3 = mkResponse shim_ERROR reason payload /\
  snd (run (peerRegistryRejects reason payload) bank "addAccount" [Marshal acc3])
    = Return (shim_Error
        "failed to create bank account for person with id 44, due to %!s(<nil>)").
Proof. split; reflexivity. Qed.

(** C8, on the code: when the peer cannot produce the history, whatever
    the error it gives, [getHistory] does not return the failure; it goes on
    to the loop, and the call of [HasNext] on the nil iterator panics. *)
Theorem getHistory_query_fault_panics (e : error) :
  GetHistoryForKey_reply (peerHistoryFails e) "ACC-1" = (None, Some e) /\
  snd (run (peerHistoryFails e) bank "getHistory" ["ACC-1"])
    = Panic "runtime error: invalid memory address or nil pointer dereference".
Proof.
  split; [reflexivity |].
  unfold run, Invoke, GetFunctionAndParameters, stubOf. cbn [invocation].
  change (actions !! "getHistory") with (Some (@getHistory lib)).
  cbv beta iota.
  rewrite (@getHistory_ignores_query_error lib _ "ACC-1" None (Some e)); reflexivity.
Qed.

(** The other half of C8 holds: a fault of [Next] ends [getHistory] with the
    history-read message. *)
Lemma getHistory_next_fault :
  snd (run peerHistoryBreaks bank "getHistory" ["ACC-1"])
    = Return (shim_Error "failed get Next() for historyIterator").
Proof. reflexivity. Qed.

(** The scenario of the specification: after moving 30 from ACC-1 (100) to
    ACC-2 (0) the stored balances are 70 and 30. *)
Lemma scenario_transfer_30 :
  snd (run peer bank "transfer" ["ACC-1"; "ACC-2"; "30"]) = Return (shim_Success PNil) /\
  balanceOf (ledger (fst (run peer bank "transfer" ["ACC-1"; "ACC-2"; "30"]))) "ACC-1"
    = Some 70%float /\
  balanceOf (ledger (fst (run peer bank "transfer" ["ACC-1"; "ACC-2"; "30"]))) "ACC-2"
    = Some 30%float.
Proof. repeat split; vm_compute; reflexivity. Qed.

End Runs.

(** ** The general theorems at concrete inputs *)

Section Witnesses.
Import Fixture.

Lemma transfer_amount_parse_error_witness :
  snd (ParseFloat "abc") <> None /\
  @transfer lib (stubOf peer bank "transfer" ["ACC-1"; "ACC-2"; "abc"])
    ["ACC-1"; "ACC-2"; "abc"] =
    (stubOf peer bank "transfer" ["ACC-1"; "ACC-2"; "abc"],
     Return (shim_Error "failed to convert amount string to number")).
Proof.
  split; [vm_compute; discriminate |].
  apply (@transfer_amount_parse_error lib
           (stubOf peer bank "transfer" ["ACC-1"; "ACC-2"; "abc"])
           "ACC-1" "ACC-2" "abc").
  vm_compute. discriminate.
Defined.

Lemma transfer_insufficient_funds_witness :
  snd (@transfer lib (stubOf peer bank "transfer" ["ACC-2"; "ACC-1"; "30"])
         ["ACC-2"; "ACC-1"; "30"]) =
    Return (shim_Error "sender doesn't have enough money") /\
  ledger (fst (@transfer lib (stubOf peer bank "transfer" ["ACC-2"; "ACC-1"; "30"])
                 ["ACC-2"; "ACC-1"; "30"])) = bank.
Proof.
  pose proof (@transfer_insufficient_funds lib
                (stubOf peer bank "transfer" ["ACC-2"; "ACC-1"; "30"])
                "ACC-2" "ACC-1" "30" 30%float (Marshal acc2) acc2) as H.
  destruct H as (Hout & Hledger & _).
  - vm_compute. reflexivity.
  - reflexivity.
  - vm_compute. reflexivity.
  - vm_compute. reflexivity.
  - vm_compute. reflexivity.
  - split; [exact Hout | exact Hledger].
Defined.

Lemma transfer_debits_and_credits_witness :
  snd (@transfer lib (stubOf peer bank "transfer" ["ACC-1"; "ACC-2"; "30"])
         ["ACC-1"; "ACC-2"; "30"]) = Return (shim_Success PNil) /\
  balanceOf (ledger (fst (@transfer lib (stubOf peer bank "transfer"
                                           ["ACC-1"; "ACC-2"; "30"])
                            ["ACC-1"; "ACC-2"; "30"]))) "ACC-1"
    = Some (PrimFloat.sub 100 30) /\
  balanceOf (ledger (fst (@transfer lib (stubOf peer bank "transfer"
                                           ["ACC-1"; "ACC-2"; "30"])
                            ["ACC-1"; "ACC-2"; "30"]))) "ACC-2"
    = Some (PrimFloat.add 0 30).
Proof.
  pose proof (@transfer_debits_and_credits lib
                (stubOf peer bank "transfer" ["ACC-1"; "ACC-2"; "30"])
                "ACC-1" "ACC-2" "30" 30%float (Marshal acc1) (Marshal acc2)
                acc1 acc2) as H.
  destruct H as (Hout & Hfrom & Hto & _).
  - discriminate.
  - vm_compute. reflexivity.
  - reflexivity.
  - reflexivity.
  - vm_compute. reflexivity.
  - vm_compute. reflexivity.
  - vm_compute. reflexivity.
  - vm_compute. reflexivity.
  - vm_compute. reflexivity.
  - intros value. reflexivity.
  - intros value. reflexivity.
  - vm_compute. reflexivity.
  - vm_compute. reflexivity.
  - split; [exact Hout | split; [exact Hfrom | exact Hto]].
Defined.

Lemma transfer_to_self_credits_witness :
  snd (@transfer lib (stubOf peer bank "transfer" ["ACC-1"; "ACC-1"; "30"])
         ["ACC-1"; "ACC-1"; "30"]) = Return (shim_Success PNil) /\
  balanceOf (ledger (fst (@transfer lib (stubOf peer bank "transfer"
                                           ["ACC-1"; "ACC-1"; "30"])
                            ["ACC-1"; "ACC-1"; "30"]))) "ACC-1"
    = Some (PrimFloat.add 100 30).
Proof.
  pose proof (@transfer_to_self_credits lib
                (stubOf peer bank "transfer" ["ACC-1"; "ACC-1"; "30"])
                "ACC-1" "30" 30%float (Marshal acc1) acc1) as H.
  destruct H as (Hout & _ & Hbalance & _).
  - vm_compute. reflexivity.
  - reflexivity.
  - vm_compute. reflexivity.
  - vm_compute. reflexivity.
  - vm_compute. reflexivity.
  - intros value. reflexivity.
  - vm_compute. reflexivity.
  - split; [exact Hout | exact Hbalance].
Defined.

Lemma addAccount_already_exists_witness :
  snd (@addAccount lib (stubOf peer bank "addAccount" [Marshal acc1Again])
         [Marshal acc1Again]) =
    Return (shim_Error "bank account with number ACC-1 already exists") /\
  ledger (fst (@addAccount lib (stubOf peer bank "addAccount" [Marshal acc1Again])
                 [Marshal acc1Again])) = bank.
Proof.
  pose proof (@addAccount_already_exists lib
                (stubOf peer bank "addAccount" [Marshal acc1Again])
                (Marshal acc1Again) acc1Again (Marshal acc1)) as H.
  destruct H as (_ & Hledger & _ & Hout).
  - vm_compute. reflexivity.
  - vm_compute. reflexivity.
  - split; [| exact Hledger].
    apply Hout; [vm_compute; discriminate | reflexivity].
Defined.

End Witnesses.

(** * Further properties of the handlers *)

(** ** The sufficiency check *)

Section Sufficiency.
Local Open Scope Z_scope.

(** On valid floats, the sign test on [x - y] is the comparison [x < y]:
    equal operands, unordered ones and infinities of one sign included. *)
Lemma SFsub_sign (x y : spec_float) :
  valid_binary x = true -> valid_binary y = true ->
  SFltb (SF64sub x y) SFzero = SFltb x y.
Proof.
  intros Hx Hy.
  destruct x as [sx | sx | | sx mx ex], y as [sy | sy | | sy my ey];
    try reflexivity;
    try (destruct sx, sy; reflexivity);
    try (destruct sx; reflexivity);
    try (destruct sy; reflexivity).
  cbn [valid_binary] in Hx, Hy.
  unfold SFltb at 2. rewrite (SFcompare_finite _ _ _ _ _ _ Hx Hy).
  unfold SF64sub, SFsub.
  change (IntDef.Z.min ex ey) with (Z.min ex ey).
  destruct (_ ?= _) eqn:Hc.
  - apply binary_normalize_nonneg. apply Z.compare_eq in Hc. lia.
  - apply binary_normalize_neg.
    + pose proof (proj1 (Z.compare_lt_iff _ _) Hc). lia.
    + pose proof (bounded_emin _ _ Hx). pose proof (bounded_emin _ _ Hy). lia.
  - apply binary_normalize_nonneg.
    pose proof (proj1 (Z.compare_gt_iff _ _) Hc). lia.
Qed.

(** X1: the check [senderAccount.Balance - amount < 0] of [transfer] rejects
    exactly when the balance is less than the amount in the order of
    binary64, for all values, infinities and NaN included: the rounding of
    the difference never changes the answer. *)
Theorem overdrawn_is_less (balance amount : float) :
  overdrawn balance amount = PrimFloat.ltb balance amount.
Proof.
  unfold overdrawn.
  rewrite !FloatAxioms.ltb_spec, FloatAxioms.sub_spec.
  apply SFsub_sign; apply Prim2SF_valid.
Qed.

End Sufficiency.

(** ** Paths of the handlers *)

Section Paths.
Context {L : GoLib}.

Lemma DelState_ok (stub : Stub) (key : string) :
  DelState_fault (ports stub) key = None ->
  DelState stub key =
  (setLedger (delete key (ledger stub)) (logCall (CDelState key) stub), None).
Proof. intros H. unfold DelState. rewrite H. reflexivity. Qed.

Lemma DelState_failed (stub : Stub) (key : string) (e : error) :
  DelState_fault (ports stub) key = Some e ->
  DelState stub key = (logCall (CDelState key) stub, Some e).
Proof. intros H. unfold DelState. rewrite H. reflexivity. Qed.

(** Every test a handler makes, split into its cases. *)
Ltac walk :=
  repeat first
    [ progress cbn [fst snd ledger calls ports invocation logCall setLedger]
    | progress cbv beta iota zeta
    | match goal with
      | |- context [json_Unmarshal ?p] => destruct (json_Unmarshal p) as [? [? |]]
      | |- context [strconv_ParseFloat ?p] =>
        destruct (strconv_ParseFloat p) as [? [? |]]
      | |- context [(Status ?r =? shim_ERROR)%Z] => destruct (Status r =? shim_ERROR)%Z
      | |- context [overdrawn ?a ?b] => destruct (overdrawn a b)
      | |- context [GetState_fault ?p ?k] => destruct (GetState_fault p k)
      | |- context [PutState_fault ?p ?k ?v] => destruct (PutState_fault p k v)
      | |- context [DelState_fault ?p ?k] => destruct (DelState_fault p k)
      | |- context [GetHistoryForKey_reply ?p ?k] =>
        destruct (GetHistoryForKey_reply p k) as [[? |] [? |]]
      | |- context [@lookup _ _ (gmap string Bytes) _ ?k (ledger ?s)] =>
        is_var s; destruct (ledger s !! k) eqn:?
      end ].

(** X2: a handler called with the wrong number of arguments (other than
    one; other than three for [transfer]) fails with its argument-count
    message and returns the stub it was given: no port is called. *)
Theorem wrong_argument_count (stub : Stub) (params : list string) :
  (length params <> 1%nat ->
   addAccount stub params = (stub, Return (shim_Error "wrong number of arguments")) /\
   delAccount stub params = (stub, Return (shim_Error "wrong number of parameters")) /\
   getBalance stub params = (stub, Return (shim_Error "wrong number of parameters")) /\
   getHistory stub params = (stub, Return (shim_Error "wrong number of parameters"))) /\
  (length params <> 3%nat ->
   transfer stub params =
     (stub, Return (shim_Error "wrong number of parameters(use: from, to, amount)"))).
Proof.
  split; intros Hlen.
  - destruct params as [| ? [| ? ?]]; cbn in Hlen; try contradiction; repeat split.
  - destruct params as [| ? [| ? [| ? [| ? ?]]]]; cbn in Hlen; try contradiction;
      reflexivity.
Qed.

(** The loop of [getHistory] leaves the ledger alone. *)
Lemma historyLoop_ledger (historyIterator : HistoryIterator) (stub : Stub)
    (history : list string) :
  ledger (fst (historyLoop historyIterator stub history)) = ledger stub /\
  writesOf (calls (fst (historyLoop historyIterator stub history)))
    = writesOf (calls stub).
Proof.
  revert stub history.
  induction historyIterator as [| [response [e |]] rest IH]; intros stub history;
    cbn [historyLoop fst ledger calls logCall].
  - rewrite writesOf_app. cbn. rewrite app_nil_r. split; reflexivity.
  - rewrite !writesOf_app. cbn. rewrite !app_nil_r. split; reflexivity.
  - destruct (Value_ge_0 (Value response));
      rewrite (proj1 (IH _ _)), (proj2 (IH _ _));
      cbn [ledger calls logCall]; rewrite !writesOf_app; cbn;
      rewrite !app_nil_r; split; reflexivity.
Qed.

(** X5: [getBalance] and [getHistory] are queries: on every stub and every
    argument list, whatever the peer answers, they leave the ledger as it
    was and issue no write. *)
Theorem queries_are_read_only (stub : Stub) (params : list string) :
  ledger (fst (getBalance stub params)) = ledger stub /\
  writesOf (calls (fst (getBalance stub params))) = writesOf (calls stub) /\
  ledger (fst (getHistory stub params)) = ledger stub /\
  writesOf (calls (fst (getHistory stub params))) = writesOf (calls stub).
Proof.
  assert (Hlog : forall c, isWrite c = false ->
            writesOf (calls stub ++ [c]) = writesOf (calls stub)).
  { intros c Hc. rewrite writesOf_app. cbn. rewrite Hc. apply app_nil_r. }
  split; [| split; [| split]].
  - unfold getBalance, GetState. destruct params as [| ? [| ? ?]]; walk; reflexivity.
  - unfold getBalance, GetState. destruct params as [| ? [| ? ?]]; walk;
      first [reflexivity | apply Hlog; reflexivity].
  - unfold getHistory, GetHistoryForKey. destruct params as [| ? [| ? ?]]; walk;
      try reflexivity; rewrite (proj1 (historyLoop_ledger _ _ _)); reflexivity.
  - unfold getHistory, GetHistoryForKey. destruct params as [| ? [| ? ?]]; walk;
      try reflexivity; try (apply Hlog; reflexivity);
      rewrite (proj2 (historyLoop_ledger _ _ _)); apply Hlog; reflexivity.
Qed.

Lemma addAccount_unsuccessful (stub : Stub) (params : list string) :
  unsuccessful (snd (addAccount stub params)) ->
  ledger (fst (addAccount stub params)) = ledger stub.
Proof.
  unfold addAccount, InvokeChaincode, GetState, PutState.
  destruct params as [| ? [| ? ?]]; walk; try reflexivity; intros H; discriminate H.
Qed.

Lemma delAccount_unsuccessful (stub : Stub) (params : list string) :
  unsuccessful (snd (delAccount stub params)) ->
  ledger (fst (delAccount stub params)) = ledger stub.
Proof.
  unfold delAccount, GetState, DelState.
  destruct params as [| ? [| ? ?]]; walk; try reflexivity; intros H; discriminate H.
Qed.

Lemma transfer_unsuccessful (stub : Stub) (params : list string) :
  unsuccessful (snd (transfer stub params)) ->
  ledger (fst (transfer stub params)) = ledger stub.
Proof.
  unfold transfer, GetState, PutState.
  destruct params as [| ? [| ? [| ? [| ? ?]]]]; walk; try reflexivity;
    intros H; discriminate H.
Qed.

(** X4: an invocation that is answered with a failure, or that panics,
    leaves the ledger as it was, whatever the operation, the arguments and
    the answers of the peer: every failure of a handler comes before its
    first write, or after a write that the peer refused. *)
Theorem unsuccessful_invocation_keeps_ledger (stub : Stub) :
  unsuccessful (snd (Invoke stub)) ->
  ledger (fst (Invoke stub)) = ledger stub.
Proof.
  unfold Invoke, GetFunctionAndParameters.
  destruct (invocation stub) as [funcName params].
  destruct (actions !! funcName) as [action |] eqn:Hlookup; [| reflexivity].
  unfold actions in Hlookup. apply elem_of_list_to_map_2 in Hlookup.
  repeat (apply elem_of_cons in Hlookup as [Hlookup | Hlookup];
          [injection Hlookup as _ -> |]).
  - apply addAccount_unsuccessful.
  - apply delAccount_unsuccessful.
  - intros _. apply (queries_are_read_only stub params).
  - apply transfer_unsuccessful.
  - intros _. apply (queries_are_read_only stub params).
  - apply elem_of_nil in Hlookup. contradiction.
Qed.

(** X6: [delAccount] and [transfer] change no record but those under the
    keys they are given: on every path, a key that is not among the
    arguments holds afterwards what it held before. *)
Theorem writes_stay_within_arguments (stub : Stub) (params : list string)
    (key : string) :
  ~ In key params ->
  ledger (fst (delAccount stub params)) !! key = ledger stub !! key /\
  ledger (fst (transfer stub params)) !! key = ledger stub !! key.
Proof.
  intros Hout. split.
  - unfold delAccount, GetState, DelState.
    destruct params as [| accountId [| ? ?]]; walk; try reflexivity;
      (rewrite lookup_delete_ne; [assumption |]);
      intros Heq; apply Hout; rewrite Heq; left; reflexivity.
  - unfold transfer, GetState, PutState.
    destruct params as [| from [| to [| amountText [| ? ?]]]]; walk; try reflexivity;
      rewrite !lookup_insert_ne; try assumption;
      intros Heq; apply Hout; rewrite Heq; cbn; auto.
Qed.

(** *** addAccount *)

(** [addAccount] on its successful path. *)
Lemma addAccount_run (stub : Stub) (p0 : string) (account : BankAccount) :
  json_Unmarshal p0 = (account, None) ->
  Status (registryReply stub account) <> shim_ERROR ->
  GetState_fault (ports stub) (AccountNumber account) = None ->
  ledger stub !! AccountNumber account = None ->
  PutState_fault (ports stub) (AccountNumber account) p0 = None ->
  addAccount stub [p0] =
    (setLedger (<[AccountNumber account := p0]> (ledger stub))
       (logCall (CPutState (AccountNumber account) p0)
          (logCall (CGetState (AccountNumber account))
             (logCall (registryCall account) stub))),
     Return (shim_Success PNil)).
Proof.
  intros Hdecode Hok Hread Habsent Hput.
  rewrite (addAccount_to_lookup stub p0 account Hdecode Hok Hread), Habsent.
  rewrite (PutState_ok (logCall (CGetState (AccountNumber account))
                          (logCall (registryCall account) stub)) _ _ Hput).
  reflexivity.
Qed.

(** X8: [addAccount] with a decodable argument, an owner the registry does
    not answer with the error status, and an account number that is read
    as absent, succeeds when the write does: the ledger afterwards is the
    one before with the argument, byte for byte, under the account number,
    and the port calls are the registry check, the read and the write, in
    this order. *)
Theorem addAccount_creates (stub : Stub) (p0 : string) (account : BankAccount) :
  json_Unmarshal p0 = (account, None) ->
  Status (registryReply stub account) <> shim_ERROR ->
  GetState_fault (ports stub) (AccountNumber account) = None ->
  ledger stub !! AccountNumber account = None ->
  PutState_fault (ports stub) (AccountNumber account) p0 = None ->
  snd (addAccount stub [p0]) = Return (shim_Success PNil) /\
  ledger (fst (addAccount stub [p0])) = <[AccountNumber account := p0]> (ledger stub) /\
  issued stub (fst (addAccount stub [p0]))
    [registryCall account; CGetState (AccountNumber account);
     CPutState (AccountNumber account) p0].
Proof.
  intros Hdecode Hok Hread Habsent Hput.
  rewrite (addAccount_run stub p0 account Hdecode Hok Hread Habsent Hput).
  unfold issued. cbn [fst snd ledger calls logCall setLedger].
  rewrite <- !app_assoc. repeat split.
Qed.

(** X9: [addAccount] with an argument that does not decode fails with the
    message that carries the decoder's error, and returns the stub it was
    given: neither the registry nor the ledger is called. *)
Theorem addAccount_malformed (stub : Stub) (p0 : string) (account : BankAccount)
    (e : error) :
  json_Unmarshal p0 = (account, Some e) ->
  addAccount stub [p0] =
    (stub,
     Return (shim_Error
       ("failed to desirialize bank account information error " +:+ e))).
Proof. intros Hdecode. unfold addAccount. rewrite Hdecode. reflexivity. Qed.

(** X10: when the registry answers the owner check with the error status,
    [addAccount] fails without touching the ledger: the registry check is
    the only port call, so the account number is not even read. *)
Theorem addAccount_rejected_person (stub : Stub) (p0 : string) (account : BankAccount) :
  json_Unmarshal p0 = (account, None) ->
  Status (registryReply stub account) = shim_ERROR ->
  unsuccessful (snd (addAccount stub [p0])) /\
  ledger (fst (addAccount stub [p0])) = ledger stub /\
  issued stub (fst (addAccount stub [p0])) [registryCall account].
Proof.
  intros Hdecode Hstatus.
  rewrite (addAccount_registry_error stub p0 account Hdecode Hstatus).
  repeat split.
Qed.

(** *** delAccount *)

(** X11: [delAccount] of a key that is read as present succeeds when the
    delete does: the ledger afterwards is the one before without the key,
    and the port calls are the read and the delete. *)
Theorem delAccount_removes (stub : Stub) (accountId : string) (accountState : Bytes) :
  GetState_fault (ports stub) accountId = None ->
  ledger stub !! accountId = Some accountState ->
  DelState_fault (ports stub) accountId = None ->
  snd (delAccount stub [accountId]) = Return (shim_Success PNil) /\
  ledger (fst (delAccount stub [accountId])) = delete accountId (ledger stub) /\
  issued stub (fst (delAccount stub [accountId]))
    [CGetState accountId; CDelState accountId].
Proof.
  intros Hread Hstate Hdel. unfold delAccount.
  rewrite (GetState_ok _ _ Hread), Hstate.
  rewrite (DelState_ok (logCall _ stub) accountId Hdel).
  unfold issued. cbn [fst snd ledger calls logCall setLedger].
  rewrite <- app_assoc. repeat split.
Qed.

(** X13: unlike the writes of [addAccount] and [transfer], a fault of the
    delete is returned: [delAccount] fails with the message that carries
    the error of [DelState], and the record stays. *)
Theorem delAccount_delete_fault (stub : Stub) (accountId : string)
    (accountState : Bytes) (e : error) :
  GetState_fault (ports stub) accountId = None ->
  ledger stub !! accountId = Some accountState ->
  DelState_fault (ports stub) accountId = Some e ->
  snd (delAccount stub [accountId]) =
    Return (shim_Error
      ("failed to delete account id " +:+ accountId +:+ ", due to " +:+ e)) /\
  ledger (fst (delAccount stub [accountId])) !! accountId = Some accountState.
Proof.
  intros Hread Hstate Hdel. unfold delAccount.
  rewrite (GetState_ok _ _ Hread), Hstate.
  rewrite (DelState_failed (logCall _ stub) accountId e Hdel).
  split; [reflexivity | exact Hstate].
Qed.

(** *** Reads *)

(** X12: a key that is read as absent is reported by [delAccount] and
    [getBalance], and by [transfer] for its sender, each with its
    does-not-exist message; the read is the only port call. *)
Theorem missing_account_reported (stub : Stub) (key to amountText : string)
    (amount : float) :
  GetState_fault (ports stub) key = None ->
  ledger stub !! key = None ->
  strconv_ParseFloat amountText = (amount, None) ->
  delAccount stub [key] =
    (logCall (CGetState key) stub,
     Return (shim_Error ("bank account with number " +:+ key +:+ " doesn't exists"))) /\
  getBalance stub [key] =
    (logCall (CGetState key) stub,
     Return (shim_Error ("bank account with number " +:+ key +:+ " doesn't exists"))) /\
  transfer stub [key; to; amountText] =
    (logCall (CGetState key) stub,
     Return (shim_Error
       ("sender bank account with number " +:+ key +:+ " doesn't exists"))).
Proof.
  intros Hread Habsent Hparse. unfold delAccount, getBalance, transfer.
  rewrite Hparse, (GetState_ok _ _ Hread), Habsent. repeat split.
Qed.

(** X14: a fault of the read of a key is returned by [delAccount] and
    [getBalance], and by [transfer] for its sender, in a message that
    carries the error of [GetState]; the read is the only port call. *)
Theorem read_fault_surfaced (stub : Stub) (key to amountText : string)
    (amount : float) (e : error) :
  GetState_fault (ports stub) key = Some e ->
  strconv_ParseFloat amountText = (amount, None) ->
  delAccount stub [key] =
    (logCall (CGetState key) stub,
     Return (shim_Error ("failed to get account information due to " +:+ e))) /\
  getBalance stub [key] =
    (logCall (CGetState key) stub,
     Return (shim_Error ("failed to get account information due to " +:+ e))) /\
  transfer stub [key; to; amountText] =
    (logCall (CGetState key) stub,
     Return (shim_Error ("failed to get sender account information due to " +:+ e))).
Proof.
  intros Hfault Hparse. unfold delAccount, getBalance, transfer.
  rewrite Hparse, (GetState_failed _ _ e Hfault). repeat split.
Qed.

(** *** Operations in sequence *)



(** X17: after a successful [delAccount], [getBalance] on the same key
    fails with the does-not-exist message. *)
Theorem delAccount_then_getBalance (stub : Stub) (accountId : string)
    (accountState : Bytes) :
  GetState_fault (ports stub) accountId = None ->
  ledger stub !! accountId = Some accountState ->
  DelState_fault (ports stub) accountId = None ->
  snd (getBalance (fst (delAccount stub [accountId])) [accountId]) =
    Return (shim_Error ("bank account with number " +:+ accountId +:+ " doesn't exists")).
Proof.
  intros Hread Hstate Hdel. unfold delAccount.
  rewrite (GetState_ok _ _ Hread), Hstate.
  rewrite (DelState_ok (logCall _ stub) accountId Hdel). cbn [fst].
  unfold getBalance. rewrite GetState_ok by exact Hread.
  cbn [ledger setLedger logCall]. rewrite lookup_delete_eq. reflexivity.
Qed.

(** *** transfer *)

(** X18: a [transfer] whose sender passes the check and whose receiver is
    read as absent fails with the receiver's does-not-exist message after
    the two reads; nothing is written, so the sender is not debited. *)
Theorem transfer_receiver_missing (stub : Stub) (from to amountText : string)
    (amount : float) (senderState : Bytes) (sender : BankAccount) :
  strconv_ParseFloat amountText = (amount, None) ->
  GetState_fault (ports stub) from = None ->
  GetState_fault (ports stub) to = None ->
  ledger stub !! from = Some senderState ->
  json_Unmarshal senderState = (sender, None) ->
  PrimFloat.ltb (Balance sender) amount = false ->
  ledger stub !! to = None ->
  transfer stub [from; to; amountText] =
    (logCall (CGetState to) (logCall (CGetState from) stub),
     Return (shim_Error
       ("receiver bank account with number " +:+ to +:+ " doesn't exists"))).
Proof.
  intros Hparse Hf1 Hf2 Hs1 Hd1 Hcheck Hs2. unfold transfer.
  rewrite Hparse, (GetState_ok _ _ Hf1), Hs1, Hd1.
  rewrite overdrawn_is_less, Hcheck.
  rewrite (GetState_ok (logCall _ stub) to Hf2). cbn [ledger logCall].
  rewrite Hs2. reflexivity.
Qed.

(** X19: a [transfer] whose sender's record does not decode fails, after
    the read of the sender alone, with a message that quotes the stored
    bytes and the decoder's error. *)
Theorem transfer_sender_undecodable (stub : Stub) (from to amountText : string)
    (amount : float) (senderState : Bytes) (sender : BankAccount) (e : error) :
  strconv_ParseFloat amountText = (amount, None) ->
  GetState_fault (ports stub) from = None ->
  ledger stub !! from = Some senderState ->
  json_Unmarshal senderState = (sender, Some e) ->
  transfer stub [from; to; amountText] =
    (logCall (CGetState from) stub,
     Return (shim_Error
       ("failed to read senderState " +:+ senderState +:+ ", due to " +:+ e))).
Proof.
  intros Hparse Hf1 Hs1 Hd1. unfold transfer.
  rewrite Hparse, (GetState_ok _ _ Hf1), Hs1, Hd1. reflexivity.
Qed.

(** X20: a [transfer] whose receiver's record does not decode fails before
    any write; its message carries the decoder's error, but the bytes it
    quotes are the sender's record, not the receiver's. *)
Theorem transfer_receiver_undecodable (stub : Stub) (from to amountText : string)
    (amount : float) (senderState receiverState : Bytes)
    (sender receiver : BankAccount) (e : error) :
  strconv_ParseFloat amountText = (amount, None) ->
  GetState_fault (ports stub) from = None ->
  GetState_fault (ports stub) to = None ->
  ledger stub !! from = Some senderState ->
  ledger stub !! to = Some receiverState ->
  json_Unmarshal senderState = (sender, None) ->
  json_Unmarshal receiverState = (receiver, Some e) ->
  PrimFloat.ltb (Balance sender) amount = false ->
  transfer stub [from; to; amountText] =
    (logCall (CGetState to) (logCall (CGetState from) stub),
     Return (shim_Error
       ("failed to read senderState " +:+ senderState +:+ ", due to " +:+ e))).
Proof.
  intros Hparse Hf1 Hf2 Hs1 Hs2 Hd1 Hd2 Hcheck. unfold transfer.
  rewrite Hparse, (GetState_ok _ _ Hf1), Hs1, Hd1.
  rewrite overdrawn_is_less, Hcheck.
  rewrite (GetState_ok (logCall _ stub) to Hf2). cbn [ledger logCall].
  rewrite Hs2, Hd2. reflexivity.
Qed.

(** X21: when the write of the sender's record succeeds and the write of
    the receiver's record is refused, [transfer] between two distinct
    accounts answers success with the sender debited and the receiver as it
    was: the two writes are independent, and the second fault is not
    returned. *)
Theorem transfer_partial_write (stub : Stub) (from to amountText : string)
    (amount : float) (senderState receiverState : Bytes)
    (sender receiver : BankAccount) (e : error) :
  from <> to ->
  strconv_ParseFloat amountText = (amount, None) ->
  GetState_fault (ports stub) from = None ->
  GetState_fault (ports stub) to = None ->
  ledger stub !! from = Some senderState ->
  ledger stub !! to = Some receiverState ->
  json_Unmarshal senderState = (sender, None) ->
  json_Unmarshal receiverState = (receiver, None) ->
  PrimFloat.ltb (Balance sender) amount = false ->
  PutState_fault (ports stub) from
    (json_Marshal (withBalance sender (PrimFloat.sub (Balance sender) amount))) = None ->
  PutState_fault (ports stub) to
    (json_Marshal (withBalance receiver (PrimFloat.add (Balance receiver) amount)))
    = Some e ->
  snd (transfer stub [from; to; amountText]) = Return (shim_Success PNil) /\
  ledger (fst (transfer stub [from; to; amountText])) !! from =
    Some (json_Marshal (withBalance sender (PrimFloat.sub (Balance sender) amount))) /\
  ledger (fst (transfer stub [from; to; amountText])) !! to = Some receiverState.
Proof.
  intros Hne Hparse Hf1 Hf2 Hs1 Hs2 Hd1 Hd2 Hcheck Hp1 Hp2.
  rewrite (transfer_past_check stub from to amountText amount
             senderState receiverState sender receiver)
    by (try assumption; rewrite overdrawn_is_less; exact Hcheck).
  rewrite (PutState_ok (logCall (CGetState to) (logCall (CGetState from) stub)) from)
    by exact Hp1.
  cbn [fst]. rewrite (PutState_failed _ to _ e) by exact Hp2.
  cbn [fst snd ledger setLedger logCall]. repeat split.
  - apply lookup_insert_eq.
  - rewrite lookup_insert_ne by exact Hne. exact Hs2.
Qed.

(** *** getHistory *)

Lemma historyLoop_lines (entries : list KeyModification) (stub : Stub)
    (history : list string) :
  snd (historyLoop (map (fun r => (r, None)) entries) stub history) =
    Return (shim_Success (PHistory (history ++ map historyLine entries)%list)).
Proof.
  revert stub history. induction entries as [| r entries IH]; intros stub history.
  - cbn. rewrite app_nil_r. reflexivity.
  - cbn [map historyLoop]. unfold historyLine at 1.
    destruct (Value_ge_0 (Value r)); rewrite IH, <- app_assoc; reflexivity.
Qed.

(** X22: when the peer hands out an iterator whose entries can all be
    fetched, [getHistory] succeeds with one line per entry, in the order of
    the iterator: the value itself, behind a plus sign where the comparison
    of the value with zero holds.  The error that came with the iterator is
    not looked at. *)
Theorem getHistory_lines (stub : Stub) (accountId : string)
    (entries : list KeyModification) (err : option error) :
  GetHistoryForKey_reply (ports stub) accountId
    = (Some (map (fun r => (r, None)) entries), err) ->
  snd (getHistory stub [accountId]) =
    Return (shim_Success (PHistory (map historyLine entries))).
Proof.
  intros Hreply.
  rewrite (getHistory_ignores_query_error stub accountId _ _ Hreply).
  apply historyLoop_lines.
Qed.

Lemma historyLoop_stops (good : list KeyModification) (response : KeyModification)
    (e : error) (rest : HistoryIterator) (stub : Stub) (history : list string) :
  calls (fst (historyLoop
                (map (fun r => (r, None)) good ++ (response, Some e) :: rest)%list
                stub history)) =
    (calls stub ++ iterations (S (length good)))%list.
Proof.
  revert stub history. induction good as [| r good IH]; intros stub history.
  - cbn. rewrite <- app_assoc. reflexivity.
  - cbn [map app historyLoop length].
    destruct (Value_ge_0 (Value r)); rewrite IH; cbn [calls logCall];
      rewrite <- !app_assoc; reflexivity.
Qed.

(** X23: when [Next] fails on an entry, [getHistory] fails with the
    history-read message, the lines gathered so far are dropped, and the
    iterator is not advanced further: the port calls are the query and one
    [HasNext] and [Next] for each entry up to the failing one. *)
Theorem getHistory_stops_at_fault (stub : Stub) (accountId : string)
    (good : list KeyModification) (response : KeyModification) (e : error)
    (rest : HistoryIterator) (err : option error) :
  GetHistoryForKey_reply (ports stub) accountId
    = (Some (map (fun r => (r, None)) good ++ (response, Some e) :: rest)%list, err) ->
  snd (getHistory stub [accountId]) =
    Return (shim_Error "failed get Next() for historyIterator") /\
  issued stub (fst (getHistory stub [accountId]))
    (CGetHistoryForKey accountId :: iterations (S (length good))).
Proof.
  intros Hreply.
  rewrite (getHistory_ignores_query_error stub accountId _ _ Hreply).
  split; [apply historyLoop_next_fault |].
  unfold issued. rewrite historyLoop_stops. cbn [calls logCall].
  rewrite <- app_assoc. reflexivity.
Qed.

End Paths.

(** ** The further properties at concrete inputs *)

Section MoreWitnesses.
Import Fixture Scenario.

(** A hypothesis on concrete data, checked by evaluation. *)
Ltac evaluate :=
  first [ reflexivity | discriminate
        | vm_compute; reflexivity | vm_compute; discriminate ].

Lemma wrong_argument_count_witness :
  getBalance (stubOf peer bank "getBalance" []) [] =
    (stubOf peer bank "getBalance" [],
     Return (shim_Error "wrong number of parameters")) /\
  @transfer lib (stubOf peer bank "getBalance" []) [] =
    (stubOf peer bank "getBalance" [],
     Return (shim_Error "wrong number of parameters(use: from, to, amount)")).
Proof.
  destruct (@wrong_argument_count lib (stubOf peer bank "getBalance" []) [])
    as [Hone Hthree].
  split.
  - apply Hone. evaluate.
  - apply Hthree. evaluate.
Defined.

Lemma Invoke_unknown_operation_witness :
  @Invoke lib (stubOf peer bank "mint" ["ACC-1"]) =
    (stubOf peer bank "mint" ["ACC-1"], Return (shim_Error "unknown operation")).
Proof.
  apply (@Invoke_unknown_operation lib (stubOf peer bank "mint" ["ACC-1"])
           "mint" ["ACC-1"]); evaluate.
Defined.

Lemma unsuccessful_invocation_keeps_ledger_witness :
  ledger (fst (@Invoke lib (stubOf peer bank "transfer" ["ACC-2"; "ACC-1"; "30"])))
    = bank.
Proof.
  apply (@unsuccessful_invocation_keeps_ledger lib
           (stubOf peer bank "transfer" ["ACC-2"; "ACC-1"; "30"])).
  vm_compute. reflexivity.
Defined.

Lemma writes_stay_within_arguments_witness :
  ledger (fst (@transfer lib (stubOf peer bankWithScrap "transfer"
                                ["ACC-1"; "ACC-2"; "30"])
                 ["ACC-1"; "ACC-2"; "30"])) !! "ACC-9"
    = Some "not a bank account".
Proof.
  destruct (@writes_stay_within_arguments lib
              (stubOf peer bankWithScrap "transfer" ["ACC-1"; "ACC-2"; "30"])
              ["ACC-1"; "ACC-2"; "30"] "ACC-9") as [_ H].
  - cbn. intros [H | [H | [H | []]]]; discriminate H.
  - exact H.
Defined.

Lemma addAccount_never_overwrites_witness :
  ledger (fst (@addAccount lib (stubOf peer bank "addAccount" [Marshal acc1Again])
                 [Marshal acc1Again])) !! "ACC-1" = Some (Marshal acc1).
Proof.
  apply (@addAccount_never_overwrites lib
           (stubOf peer bank "addAccount" [Marshal acc1Again])
           [Marshal acc1Again] "ACC-1" (Marshal acc1)).
  evaluate.
Defined.

Lemma addAccount_creates_witness :
  snd (@addAccount lib (stubOf peer bank "addAccount" [Marshal acc3]) [Marshal acc3])
    = Return (shim_Success PNil) /\
  ledger (fst (@addAccount lib (stubOf peer bank "addAccount" [Marshal acc3])
                 [Marshal acc3]))
    = <["ACC-3" := Marshal acc3]> bank.
Proof.
  pose proof (@addAccount_creates lib (stubOf peer bank "addAccount" [Marshal acc3])
              (Marshal acc3) acc3) as H.
  destruct H as (Hout & Hledger & _); [evaluate .. |].
  split; [exact Hout | exact Hledger].
Defined.

Lemma addAccount_malformed_witness :
  @addAccount lib (stubOf peer bank "addAccount" ["not a bank account"])
    ["not a bank account"] =
    (stubOf peer bank "addAccount" ["not a bank account"],
     Return (shim_Error
       "failed to desirialize bank account information error json: malformed bank account")).
Proof.
  apply (@addAccount_malformed lib
           (stubOf peer bank "addAccount" ["not a bank account"])
           "not a bank account" zeroAccount "json: malformed bank account").
  evaluate.
Defined.

Lemma addAccount_rejected_person_witness :
  ledger (fst (@addAccount lib
                 (stubOf (peerRegistryRejects "no such person" PNil) bank
                    "addAccount" [Marshal acc3])
                 [Marshal acc3])) = bank /\
  calls (fst (@addAccount lib
                (stubOf (peerRegistryRejects "no such person" PNil) bank
                   "addAccount" [Marshal acc3])
                [Marshal acc3])) = [registryCall acc3].
Proof.
  pose proof (@addAccount_rejected_person lib
              (stubOf (peerRegistryRejects "no such person" PNil) bank
                 "addAccount" [Marshal acc3])
              (Marshal acc3) acc3) as H.
  destruct H as (_ & Hledger & Hcalls); [evaluate .. |].
  split; [exact Hledger | exact Hcalls].
Defined.

Lemma delAccount_removes_witness :
  snd (delAccount (stubOf peer bank "delAccount" ["ACC-1"]) ["ACC-1"])
    = Return (shim_Success PNil) /\
  ledger (fst (delAccount (stubOf peer bank "delAccount" ["ACC-1"]) ["ACC-1"]))
    = delete "ACC-1" bank.
Proof.
  pose proof (delAccount_removes (stubOf peer bank "delAccount" ["ACC-1"])
              "ACC-1" (Marshal acc1)) as H.
  destruct H as (Hout & Hledger & _); [evaluate .. |].
  split; [exact Hout | exact Hledger].
Defined.

Lemma delAccount_delete_fault_witness :
  snd (delAccount (stubOf (peerDeletesFail "ledger: delete refused") bank
                     "delAccount" ["ACC-1"]) ["ACC-1"])
    = Return (shim_Error
        "failed to delete account id ACC-1, due to ledger: delete refused").
Proof.
  pose proof (delAccount_delete_fault
              (stubOf (peerDeletesFail "ledger: delete refused") bank
                 "delAccount" ["ACC-1"])
              "ACC-1" (Marshal acc1) "ledger: delete refused") as H.
  destruct H as (Hout & _); [evaluate .. |].
  exact Hout.
Defined.

Lemma missing_account_reported_witness :
  snd (getBalance (stubOf peer bank "getBalance" ["ACC-7"]) ["ACC-7"])
    = Return (shim_Error "bank account with number ACC-7 doesn't exists") /\
  snd (@transfer lib (stubOf peer bank "getBalance" ["ACC-7"]) ["ACC-7"; "ACC-1"; "30"])
    = Return (shim_Error "sender bank account with number ACC-7 doesn't exists").
Proof.
  pose proof (@missing_account_reported lib (stubOf peer bank "getBalance" ["ACC-7"])
              "ACC-7" "ACC-1" "30" 30%float) as H.
  destruct H as (_ & Hget & Hmove); [evaluate .. |].
  rewrite Hget, Hmove. split; reflexivity.
Defined.

Lemma read_fault_surfaced_witness :
  snd (delAccount (stubOf (peerReadsFail "ledger: read refused") bank
                     "delAccount" ["ACC-1"]) ["ACC-1"])
    = Return (shim_Error
        "failed to get account information due to ledger: read refused").
Proof.
  pose proof (@read_fault_surfaced lib
              (stubOf (peerReadsFail "ledger: read refused") bank
                 "delAccount" ["ACC-1"])
              "ACC-1" "ACC-2" "30" 30%float "ledger: read refused") as H.
  destruct H as (Hdel & _); [evaluate .. |].
  rewrite Hdel. reflexivity.
Defined.



Lemma delAccount_then_getBalance_witness :
  snd (getBalance
         (fst (delAccount (stubOf peer bank "delAccount" ["ACC-1"]) ["ACC-1"]))
         ["ACC-1"])
    = Return (shim_Error "bank account with number ACC-1 doesn't exists").
Proof.
  apply (delAccount_then_getBalance (stubOf peer bank "delAccount" ["ACC-1"])
           "ACC-1" (Marshal acc1)); evaluate.
Defined.

Lemma transfer_receiver_missing_witness :
  snd (@transfer lib (stubOf peer bank "transfer" ["ACC-1"; "ACC-7"; "30"])
         ["ACC-1"; "ACC-7"; "30"])
    = Return (shim_Error "receiver bank account with number ACC-7 doesn't exists") /\
  ledger (fst (@transfer lib (stubOf peer bank "transfer" ["ACC-1"; "ACC-7"; "30"])
                 ["ACC-1"; "ACC-7"; "30"])) = bank.
Proof.
  rewrite (@transfer_receiver_missing lib
             (stubOf peer bank "transfer" ["ACC-1"; "ACC-7"; "30"])
             "ACC-1" "ACC-7" "30" 30%float (Marshal acc1) acc1); [| evaluate ..].
  split; reflexivity.
Defined.

Lemma transfer_sender_undecodable_witness :
  snd (@transfer lib (stubOf peer bankWithScrap "transfer" ["ACC-9"; "ACC-1"; "30"])
         ["ACC-9"; "ACC-1"; "30"])
    = Return (shim_Error
        "failed to read senderState not a bank account, due to json: malformed bank account").
Proof.
  rewrite (@transfer_sender_undecodable lib
             (stubOf peer bankWithScrap "transfer" ["ACC-9"; "ACC-1"; "30"])
             "ACC-9" "ACC-1" "30" 30%float "not a bank account" zeroAccount
             "json: malformed bank account"); [| evaluate ..].
  reflexivity.
Defined.

Lemma transfer_receiver_undecodable_witness :
  snd (@transfer lib (stubOf peer bankWithScrap "transfer" ["ACC-1"; "ACC-9"; "30"])
         ["ACC-1"; "ACC-9"; "30"])
    = Return (shim_Error
        ("failed to read senderState " +:+ Marshal acc1
         +:+ ", due to json: malformed bank account")).
Proof.
  rewrite (@transfer_receiver_undecodable lib
             (stubOf peer bankWithScrap "transfer" ["ACC-1"; "ACC-9"; "30"])
             "ACC-1" "ACC-9" "30" 30%float (Marshal acc1) "not a bank account"
             acc1 zeroAccount "json: malformed bank account"); [| evaluate ..].
  reflexivity.
Defined.

Lemma transfer_partial_write_witness :
  snd (@transfer lib
         (stubOf (peerWriteFailsOn "ACC-2" "ledger: write refused") bank "transfer"
            ["ACC-1"; "ACC-2"; "30"])
         ["ACC-1"; "ACC-2"; "30"]) = Return (shim_Success PNil) /\
  balanceOf (ledger (fst (@transfer lib
                            (stubOf (peerWriteFailsOn "ACC-2" "ledger: write refused")
                               bank "transfer" ["ACC-1"; "ACC-2"; "30"])
                            ["ACC-1"; "ACC-2"; "30"]))) "ACC-2" = Some 0%float.
Proof.
  pose proof (@transfer_partial_write lib
              (stubOf (peerWriteFailsOn "ACC-2" "ledger: write refused") bank
                 "transfer" ["ACC-1"; "ACC-2"; "30"])
              "ACC-1" "ACC-2" "30" 30%float (Marshal acc1) (Marshal acc2) acc1 acc2
              "ledger: write refused") as H.
  destruct H as (Hout & _ & Hto); [evaluate .. |].
  split; [exact Hout |].
  unfold balanceOf, storedBalance. rewrite Hto. vm_compute. reflexivity.
Defined.

Lemma getHistory_lines_witness :
  snd (@getHistory lib
         (stubOf (peerHistoryOf [(entry "70", None); (entry "100", None)]) bank
            "getHistory" ["ACC-1"])
         ["ACC-1"]) = Return (shim_Success (PHistory ["+70"; "+100"])).
Proof.
  apply (@getHistory_lines lib
           (stubOf (peerHistoryOf [(entry "70", None); (entry "100", None)]) bank
              "getHistory" ["ACC-1"])
           "ACC-1" [entry "70"; entry "100"] None).
  reflexivity.
Defined.

Lemma getHistory_stops_at_fault_witness :
  calls (fst (@getHistory lib
                (stubOf (peerHistoryOf [(entry "70", None);
                                        (entry "", Some "history: fetch failed");
                                        (entry "100", None)])
                   bank "getHistory" ["ACC-1"])
                ["ACC-1"]))
    = [CGetHistoryForKey "ACC-1"; CHasNext; CNext; CHasNext; CNext].
Proof.
  pose proof (@getHistory_stops_at_fault lib
              (stubOf (peerHistoryOf [(entry "70", None);
                                      (entry "", Some "history: fetch failed");
                                      (entry "100", None)])
                 bank "getHistory" ["ACC-1"])
              "ACC-1" [entry "70"] (entry "") "history: fetch failed"
              [(entry "100", None)] None) as H.
  destruct H as (_ & Hcalls); [evaluate .. |].
  exact Hcalls.
Defined.

End MoreWitnesses.

(** ** Amounts that are no numbers *)

Section SpecialAmounts.
Context {L : GoLib}.

(** Once [strconv.ParseFloat] has returned without an error, [transfer]
    goes to the ledger: whatever happens next, its first port call, the
    read of the sender, has been issued. *)
Lemma transfer_parsed_amount_reads (stub : Stub) (from to amountText : string)
    (amount : float) :
  strconv_ParseFloat amountText = (amount, None) ->
  exists cs, issued stub (fst (transfer stub [from; to; amountText]))
               (CGetState from :: cs).
Proof.
  intros Hparse. unfold transfer, GetState, PutState, issued. rewrite Hparse.
  repeat first
    [ progress cbn [fst snd ledger calls ports invocation logCall setLedger]
    | progress cbv beta iota zeta
    | match goal with
      | |- context [json_Unmarshal ?p] => destruct (json_Unmarshal p) as [? [? |]]
      | |- context [overdrawn ?a ?b] => destruct (overdrawn a b)
      | |- context [GetState_fault ?p ?k] => destruct (GetState_fault p k)
      | |- context [PutState_fault ?p ?k ?v] => destruct (PutState_fault p k v)
      | |- context [@lookup _ _ (gmap string Bytes) _ ?k (ledger ?s)] =>
        is_var s; destruct (ledger s !! k)
      end ];
    rewrite <- ?app_assoc; eexists; reflexivity.
Qed.

End SpecialAmounts.

Section SpecialAmountRuns.
Import Fixture Scenario.

(** C4 fails on the code: [NaN] and [Inf] name no number, yet
    [strconv.ParseFloat] reads them without an error, and [transfer] goes
    on.  With [NaN] no comparison holds, so the check passes: both records
    are read, both writes are issued and the answer is success.  With [Inf]
    the sender is read and the answer is the insufficient-funds message.
    Neither is answered with the amount-parse message, and both reach the
    ledger. *)
Lemma transfer_accepts_special_amounts :
  ParseFloatSpecial "NaN" = (PrimFloat.nan, None) /\
  snd (@transfer libSpecial (stubOf peer bank "transfer" ["ACC-1"; "ACC-2"; "NaN"])
         ["ACC-1"; "ACC-2"; "NaN"]) = Return (shim_Success PNil) /\
  calls (fst (@transfer libSpecial
                (stubOf peer bank "transfer" ["ACC-1"; "ACC-2"; "NaN"])
                ["ACC-1"; "ACC-2"; "NaN"])) =
    [CGetState "ACC-1"; CGetState "ACC-2";
     CPutState "ACC-1" (Marshal (withBalance acc1 PrimFloat.nan));
     CPutState "ACC-2" (Marshal (withBalance acc2 PrimFloat.nan))] /\
  ParseFloatSpecial "Inf" = (PrimFloat.infinity, None) /\
  snd (@transfer libSpecial (stubOf peer bank "transfer" ["ACC-1"; "ACC-2"; "Inf"])
         ["ACC-1"; "ACC-2"; "Inf"]) =
    Return (shim_Error "sender doesn't have enough money") /\
  calls (fst (@transfer libSpecial
                (stubOf peer bank "transfer" ["ACC-1"; "ACC-2"; "Inf"])
                ["ACC-1"; "ACC-2"; "Inf"])) = [CGetState "ACC-1"].
Proof. repeat split; vm_compute; reflexivity. Qed.

End SpecialAmountRuns.
